(** * hijacknet: lobby rendezvous over newline-framed JSON

    A shallow embedding of [src/hijacknet/__init__.py] and the properties
    of its framing, handshake, lobby and server hand-off.

    Layout: the Python values that travel (part 1), the text codecs the
    module calls, [json.dumps]/[json.loads] and UTF-8 (part 2), the
    classes [HijackClient], [HijackLobby], [HijackServer] (part 3), the
    predicates the statements use (part 4), and then the lemmas and
    theorems (part 5), with the properties of the rest of the module and
    of the examples at the end (part 6).

    Scope of the model.  Values are the float-free JSON values; a run that
    meets a float ends in [Beyond].  Limits of the interpreter are not
    modelled: memory, the recursion limit that [json] meets on very deeply
    nested values, and the limit on the number of digits of an integer
    converted to or from text that recent versions of Python enforce.  The
    line limit of an [asyncio] reader is modelled, with the input of a
    reader taken as having arrived in full. *)

From Stdlib Require Import ZArith NArith List String Ascii Bool Lia.
From Stdlib.Strings Require Import Byte.
From Stdlib Require Import Decimal DecimalFacts DecimalPos DecimalN.
From stdpp Require Import base option list gmap strings.

#[local] Set Warnings "-register-all".
Local Open Scope N_scope.

(* ================================================================= *)
(** ** Part 1. Python values *)

(** A Python [str] is a sequence of code points; JSON text and the text
    of a line on the wire are [str] too. *)
Definition text := list N.

Definition txt (s : string) : text :=
  List.map N_of_ascii (list_ascii_of_string s).

(** [Jsonable = Union[dict[str, Jsonable], list[Jsonable], str, int, float,
    bool, None]].  [JNull] is Python's [None].  Floats are left out of the
    embedding: their text form is [float.__repr__], which is not modelled;
    a run that would produce one ends in [Beyond] below. *)
Inductive Jsonable : Type :=
| JNull
| JBool (b : bool)
| JInt (z : Z)
| JStr (s : text)
| JList (items : list Jsonable)
| JDict (items : list (text * Jsonable)).

(** Induction on a value, with the hypothesis for every item of a list and
    every value of a dict. *)
Section JsonableInduction.
Variable P : Jsonable -> Prop.
Hypothesis HNull : P JNull.
Hypothesis HBool : forall b, P (JBool b).
Hypothesis HInt : forall z, P (JInt z).
Hypothesis HStr : forall s, P (JStr s).
Hypothesis HList : forall items, Forall P items -> P (JList items).
Hypothesis HDict :
  forall items, Forall (fun kv => P (snd kv)) items -> P (JDict items).

Fixpoint Jsonable_nested_ind (o : Jsonable) : P o :=
  match o with
  | JNull => HNull
  | JBool b => HBool b
  | JInt z => HInt z
  | JStr s => HStr s
  | JList items =>
      HList items
        ((fix go (l : list Jsonable) : Forall P l :=
            match l with
            | [] => List.Forall_nil P
            | x :: l' => List.Forall_cons P x l' (Jsonable_nested_ind x) (go l')
            end) items)
  | JDict items =>
      HDict items
        ((fix go (l : list (text * Jsonable)) : Forall (fun kv => P (snd kv)) l :=
            match l with
            | [] => List.Forall_nil _
            | kv :: l' =>
                List.Forall_cons (fun kv => P (snd kv)) kv l'
                  (Jsonable_nested_ind (snd kv)) (go l')
            end) items)
  end.
End JsonableInduction.

(** The exceptions the module and the library calls it makes can raise. *)
Inductive exn : Type :=
| Exception (msg : string)
| TypeError
| KeyError
| AttributeError
| JSONDecodeError
| UnicodeDecodeError
| UnicodeEncodeError
| ValueError
| ConnectionResetError.

(** The result of running a piece of code: a value, an exception, or
    [Beyond] when the run leaves the modelled fragment (a float literal in
    the input, or parser fuel exhausted); nothing is claimed of such a run. *)
Inductive outcome (A : Type) : Type :=
| Ok (a : A)
| Raise (e : exn)
| Beyond.
Arguments Ok {A} a.
Arguments Raise {A} e.
Arguments Beyond {A}.

Definition obind {A B} (m : outcome A) (k : A -> outcome B) : outcome B :=
  match m with
  | Ok a => k a
  | Raise e => Raise e
  | Beyond => Beyond
  end.

Notation "'try!' x ':=' m 'in' k" := (obind m (fun x => k))
  (at level 10, x pattern, m at level 100, k at level 200).

(** Code that mutates an object [S] and may raise: the object's state
    survives the exception, as it does in Python. *)
Definition St (S A : Type) : Type := S -> outcome A * S.

Definition sbind {S A B} (m : St S A) (k : A -> St S B) : St S B :=
  fun s =>
    match m s with
    | (Ok a, s') => k a s'
    | (Raise e, s') => (Raise e, s')
    | (Beyond, s') => (Beyond, s')
    end.

Definition sret {S A} (a : A) : St S A := fun s => (Ok a, s).
Definition sraise {S A} (e : exn) : St S A := fun s => (Raise e, s).
Definition slift {S A} (m : outcome A) : St S A := fun s => (m, s).

Notation "'do!' x ':=' m 'in' k" := (sbind m (fun x => k))
  (at level 10, x pattern, m at level 100, k at level 200).

(** Insertion-ordered dictionaries, as Python's [dict]: assignment to a
    key that is present keeps its position. *)
Section Dict.
Context {K V : Type} `{EqDecision K}.

Fixpoint dict_get (d : list (K * V)) (k : K) : option V :=
  match d with
  | [] => None
  | (k', v) :: d' => if decide (k' = k) then Some v else dict_get d' k
  end.

Definition dict_contains (d : list (K * V)) (k : K) : bool :=
  match dict_get d k with Some _ => true | None => false end.

Fixpoint dict_set (d : list (K * V)) (k : K) (v : V) : list (K * V) :=
  match d with
  | [] => [(k, v)]
  | (k', v') :: d' =>
      if decide (k' = k) then (k', v) :: d' else (k', v') :: dict_set d' k v
  end.

(** [dict(pairs)] *)
Definition dict_of_pairs (pairs : list (K * V)) : list (K * V) :=
  fold_left (fun d kv => dict_set d (fst kv) (snd kv)) pairs [].

Definition dict_values (d : list (K * V)) : list V := List.map snd d.
Definition dict_keys (d : list (K * V)) : list K := List.map fst d.
End Dict.

(** What [hash] and [==] see of a value used as a dictionary key: [True]
    and [1] are the same key, lists and dicts are unhashable. *)
Inductive pykey : Type :=
| KNone
| KNum (z : Z)
| KStr (s : text).

#[global] Instance pykey_eq_dec : EqDecision pykey.
Proof. solve_decision. Defined.

Definition pykey_to_sum (k : pykey) : unit + (Z + text) :=
  match k with
  | KNone => inl tt
  | KNum z => inr (inl z)
  | KStr s => inr (inr s)
  end.

Definition pykey_of_sum (x : unit + (Z + text)) : pykey :=
  match x with
  | inl _ => KNone
  | inr (inl z) => KNum z
  | inr (inr s) => KStr s
  end.

#[global] Instance pykey_countable : Countable pykey.
Proof.
  apply (inj_countable' pykey_to_sum pykey_of_sum).
  intros []; reflexivity.
Defined.

Definition py_hash (v : Jsonable) : outcome pykey :=
  match v with
  | JNull => Ok KNone
  | JBool b => Ok (KNum (if b then 1 else 0)%Z)
  | JInt z => Ok (KNum z)
  | JStr s => Ok (KStr s)
  | JList _ => Raise TypeError
  | JDict _ => Raise TypeError
  end.

(** Python's [==] on these values: numbers compare by value across [bool]
    and [int], lists element by element, dicts key by key whatever the
    order. *)
Fixpoint py_eqb (a b : Jsonable) {struct a} : bool :=
  match a, b with
  | JNull, JNull => true
  | JBool x, JBool y => Bool.eqb x y
  | JBool x, JInt z => ((if x then 1 else 0) =? z)%Z
  | JInt z, JBool y => (z =? (if y then 1 else 0))%Z
  | JInt x, JInt y => (x =? y)%Z
  | JStr x, JStr y => bool_decide (x = y)
  | JList xs, JList ys =>
      (fix all2 (xs : list Jsonable) (ys : list Jsonable) : bool :=
         match xs, ys with
         | [], [] => true
         | x :: xs', y :: ys' => py_eqb x y && all2 xs' ys'
         | _, _ => false
         end) xs ys
  | JDict xs, JDict ys =>
      (length xs =? length ys)%nat &&
      (fix all_in (xs : list (text * Jsonable)) : bool :=
         match xs with
         | [] => true
         | (k, v) :: xs' =>
             match dict_get ys k with
             | Some w => py_eqb v w && all_in xs'
             | None => false
             end
         end) xs
  | _, _ => false
  end.

(** [o[k]] for a [str] index [k]. *)
Definition py_getitem (o : Jsonable) (k : text) : outcome Jsonable :=
  match o with
  | JDict d =>
      match dict_get d k with
      | Some v => Ok v
      | None => Raise KeyError
      end
  | _ => Raise TypeError
  end.

(* ================================================================= *)
(** ** Part 2. The text codecs the module calls *)

(** *** [json.dumps(msg, separators=(',', ':'))]

    Defaults in force: [ensure_ascii=True], [sort_keys=False],
    [indent=None]. *)

Definition hex_digit (n : N) : N := if n <? 10 then 48 + n else 87 + n.

(** ['\\u{0:04x}'.format(n)] *)
Definition u_escape (n : N) : text :=
  [92; 117; hex_digit ((n / 4096) mod 16); hex_digit ((n / 256) mod 16);
   hex_digit ((n / 16) mod 16); hex_digit (n mod 16)].

(** The replacement [encode_basestring_ascii] makes for one character: the
    short escapes of [ESCAPE_DCT], the printable ASCII range unchanged,
    anything else as [\uXXXX], above the BMP as a surrogate pair. *)
Definition escape_char (c : N) : text :=
  if c =? 34 then [92; 34]
  else if c =? 92 then [92; 92]
  else if c =? 10 then [92; 110]
  else if c =? 13 then [92; 114]
  else if c =? 9 then [92; 116]
  else if c =? 12 then [92; 102]
  else if c =? 8 then [92; 98]
  else if (32 <=? c) && (c <=? 126) then [c]
  else if c <? 65536 then u_escape c
  else
    let n := c - 65536 in
    u_escape (N.lor 55296 (N.land (N.shiftr n 10) 1023))
    ++ u_escape (N.lor 56320 (N.land n 1023)).

Definition encode_basestring_ascii (s : text) : text :=
  34 :: flat_map escape_char s ++ [34].
Arguments encode_basestring_ascii : simpl never.

Definition digit_char (d : N) : N := 48 + d.

Fixpoint uint_text (u : Decimal.uint) : text :=
  match u with
  | Nil => []
  | D0 u => digit_char 0 :: uint_text u
  | D1 u => digit_char 1 :: uint_text u
  | D2 u => digit_char 2 :: uint_text u
  | D3 u => digit_char 3 :: uint_text u
  | D4 u => digit_char 4 :: uint_text u
  | D5 u => digit_char 5 :: uint_text u
  | D6 u => digit_char 6 :: uint_text u
  | D7 u => digit_char 7 :: uint_text u
  | D8 u => digit_char 8 :: uint_text u
  | D9 u => digit_char 9 :: uint_text u
  end.

(** [int.__repr__] *)
Definition int_repr (z : Z) : text :=
  match z with
  | Z0 => [48]
  | Zpos p => uint_text (Pos.to_uint p)
  | Zneg p => 45 :: uint_text (Pos.to_uint p)
  end.

(** [sep.join(parts)] *)
Fixpoint join (sep : text) (parts : list text) : text :=
  match parts with
  | [] => []
  | [p] => p
  | p :: ps => p ++ sep ++ join sep ps
  end.

Fixpoint dumps (o : Jsonable) : text :=
  match o with
  | JNull => txt "null"
  | JBool true => txt "true"
  | JBool false => txt "false"
  | JInt z => int_repr z
  | JStr s => encode_basestring_ascii s
  | JList items => 91 :: join [44] (List.map dumps items) ++ [93]
  | JDict items =>
      123 :: join [44]
        (List.map (fun kv => encode_basestring_ascii (fst kv) ++ 58 :: dumps (snd kv))
           items) ++ [125]
  end.

(** *** [json.loads(s)] *)

Definition is_ws (c : N) : bool :=
  (c =? 32) || (c =? 9) || (c =? 10) || (c =? 13).

(** [WHITESPACE.match(s, end).end()] *)
Fixpoint skip_ws (s : text) : text :=
  match s with
  | c :: r => if is_ws c then skip_ws r else s
  | [] => []
  end.

Definition is_digit (c : N) : bool := (48 <=? c) && (c <=? 57).

Definition hex_value (c : N) : option N :=
  if is_digit c then Some (c - 48)
  else if (97 <=? c) && (c <=? 102) then Some (c - 87)
  else if (65 <=? c) && (c <=? 70) then Some (c - 55)
  else None.

(** Four hexadecimal digits after [\u]. *)
Definition decode_uXXXX (a b c d : N) : option N :=
  match hex_value a, hex_value b, hex_value c, hex_value d with
  | Some x, Some y, Some z, Some w => Some (((x * 16 + y) * 16 + z) * 16 + w)
  | _, _, _, _ => None
  end.

(** The [BACKSLASH] table of the decoder. *)
Definition backslash (e : N) : option N :=
  if e =? 34 then Some 34
  else if e =? 92 then Some 92
  else if e =? 47 then Some 47
  else if e =? 98 then Some 8
  else if e =? 102 then Some 12
  else if e =? 110 then Some 10
  else if e =? 114 then Some 13
  else if e =? 116 then Some 9
  else None.

(** [scanstring(s, end, strict=True)]: [s] starts just after the opening
    quote, [chunks] holds what was read so far.  A high surrogate escape
    directly followed by a low surrogate escape is joined into one code
    point. *)
Fixpoint scanstring (s : text) (chunks : text) {struct s} : outcome (text * text) :=
  match s with
  | [] => Raise JSONDecodeError
  | c :: s1 =>
      if c =? 34 then Ok (chunks, s1)
      else if c =? 92 then
        match s1 with
        | [] => Raise JSONDecodeError
        | e :: s2 =>
            if e =? 117 then
              match s2 with
              | h1 :: h2 :: h3 :: h4 :: s3 =>
                  match decode_uXXXX h1 h2 h3 h4 with
                  | None => Raise JSONDecodeError
                  | Some uni =>
                      if (55296 <=? uni) && (uni <=? 56319) then
                        match s3 with
                        | b :: u :: s4 =>
                            if (b =? 92) && (u =? 117) then
                              match s4 with
                              | g1 :: g2 :: g3 :: g4 :: s5 =>
                                  match decode_uXXXX g1 g2 g3 g4 with
                                  | None => Raise JSONDecodeError
                                  | Some uni2 =>
                                      if (56320 <=? uni2) && (uni2 <=? 57343) then
                                        scanstring s5
                                          (chunks ++
                                             [65536 + N.lor (N.shiftl (uni - 55296) 10)
                                                        (uni2 - 56320)])
                                      else scanstring s3 (chunks ++ [uni])
                                  end
                              | _ => Raise JSONDecodeError
                              end
                            else scanstring s3 (chunks ++ [uni])
                        | _ => scanstring s3 (chunks ++ [uni])
                        end
                      else scanstring s3 (chunks ++ [uni])
                  end
              | _ => Raise JSONDecodeError
              end
            else
              match backslash e with
              | Some ch => scanstring s2 (chunks ++ [ch])
              | None => Raise JSONDecodeError
              end
        end
      else if c <? 32 then Raise JSONDecodeError
      else scanstring s1 (chunks ++ [c])
  end.

Fixpoint strip_prefix (p s : text) : option text :=
  match p, s with
  | [], _ => Some s
  | a :: p', b :: s' => if a =? b then strip_prefix p' s' else None
  | _ :: _, [] => None
  end.

Definition cons_digit (c : N) (u : Decimal.uint) : Decimal.uint :=
  if c =? 48 then D0 u else if c =? 49 then D1 u else if c =? 50 then D2 u
  else if c =? 51 then D3 u else if c =? 52 then D4 u else if c =? 53 then D5 u
  else if c =? 54 then D6 u else if c =? 55 then D7 u else if c =? 56 then D8 u
  else D9 u.

(** The longest run of digits at the head of [s]. *)
Fixpoint span_digits (s : text) : Decimal.uint * text :=
  match s with
  | c :: r =>
      if is_digit c then
        let '(u, r') := span_digits r in (cons_digit c u, r')
      else (Nil, s)
  | [] => (Nil, [])
  end.

(** What [NUMBER_RE.match] finds at the head of [s]: an optional minus
    sign, then a single 0 or a run of digits that does not start with 0;
    then, optionally, a fraction (a dot and digits) and an exponent (e or
    E, an optional sign, digits).  With a fraction or an exponent the
    token is a float. *)
Inductive number_token : Type :=
| IntTok (z : Z) (rest : text)
| FloatTok
| NoNumber.

Definition has_frac (r : text) : bool :=
  match r with
  | p :: d :: _ => (p =? 46) && is_digit d
  | _ => false
  end.

Definition has_exp (r : text) : bool :=
  match r with
  | e :: r1 =>
      ((e =? 101) || (e =? 69)) &&
      match r1 with
      | d :: r2 =>
          is_digit d ||
          (((d =? 43) || (d =? 45)) &&
           match r2 with d' :: _ => is_digit d' | [] => false end)
      | [] => false
      end
  | [] => false
  end.

Definition number_end (neg : bool) (u : Decimal.uint) (r : text) : number_token :=
  if has_frac r || has_exp r then FloatTok
  else IntTok (if neg then - Z.of_N (N.of_uint u) else Z.of_N (N.of_uint u))%Z r.

Definition match_number (s : text) : number_token :=
  let '(neg, s1) :=
    match s with
    | c :: r => if c =? 45 then (true, r) else (false, s)
    | [] => (false, s)
    end in
  match s1 with
  | c :: r =>
      if c =? 48 then number_end neg (D0 Nil) r
      else if is_digit c then
        let '(u, r') := span_digits s1 in number_end neg u r'
      else NoNumber
  | [] => NoNumber
  end.

Definition starts_with (p s : text) : bool :=
  match strip_prefix p s with Some _ => true | None => false end.

(** [scan_once], [JSONArray] and [JSONObject] of the decoder.  Every error
    the decoder reports is a [JSONDecodeError]. *)
Fixpoint scan_once (fuel : nat) (s : text) {struct fuel} : outcome (Jsonable * text) :=
  match fuel with
  | O => Beyond
  | S fuel' =>
      match s with
      | [] => Raise JSONDecodeError
      | c :: r =>
          if c =? 34 then
            try! (str, rest) := scanstring r [] in Ok (JStr str, rest)
          else if c =? 123 then
            match skip_ws r with
            | q :: r1 =>
                if q =? 125 then Ok (JDict [], r1)
                else if q =? 34 then object_items fuel' r1 []
                else Raise JSONDecodeError
            | [] => Raise JSONDecodeError
            end
          else if c =? 91 then
            match skip_ws r with
            | q :: r1 =>
                if q =? 93 then Ok (JList [], r1)
                else array_items fuel' (q :: r1) []
            | [] => Raise JSONDecodeError
            end
          else
            match strip_prefix (txt "null") s with
            | Some rest => Ok (JNull, rest)
            | None =>
            match strip_prefix (txt "true") s with
            | Some rest => Ok (JBool true, rest)
            | None =>
            match strip_prefix (txt "false") s with
            | Some rest => Ok (JBool false, rest)
            | None =>
            match match_number s with
            | IntTok z rest => Ok (JInt z, rest)
            | FloatTok => Beyond
            | NoNumber =>
                if starts_with (txt "NaN") s || starts_with (txt "Infinity") s
                   || starts_with (txt "-Infinity") s
                then Beyond
                else Raise JSONDecodeError
            end end end end
      end
  end

with array_items (fuel : nat) (s : text) (values : list Jsonable) {struct fuel}
  : outcome (Jsonable * text) :=
  match fuel with
  | O => Beyond
  | S fuel' =>
      try! (value, rest) := scan_once fuel' s in
      match skip_ws rest with
      | c :: r =>
          if c =? 93 then Ok (JList (values ++ [value]), r)
          else if c =? 44 then array_items fuel' (skip_ws r) (values ++ [value])
          else Raise JSONDecodeError
      | [] => Raise JSONDecodeError
      end
  end

with object_items (fuel : nat) (s : text) (pairs : list (text * Jsonable)) {struct fuel}
  : outcome (Jsonable * text) :=
  match fuel with
  | O => Beyond
  | S fuel' =>
      try! (key, rest) := scanstring s [] in
      match skip_ws rest with
      | c :: r =>
          if c =? 58 then
            try! (value, rest') := scan_once fuel' (skip_ws r) in
            match skip_ws rest' with
            | d :: r' =>
                if d =? 125 then Ok (JDict (dict_of_pairs (pairs ++ [(key, value)])), r')
                else if d =? 44 then
                  match skip_ws r' with
                  | q :: r'' =>
                      if q =? 34 then object_items fuel' r'' (pairs ++ [(key, value)])
                      else Raise JSONDecodeError
                  | [] => Raise JSONDecodeError
                  end
                else Raise JSONDecodeError
            | [] => Raise JSONDecodeError
            end
          else Raise JSONDecodeError
      | [] => Raise JSONDecodeError
      end
  end.

(** [json.loads(s)] for a [str]: no byte-order mark, one value, only
    whitespace around it. *)
Definition loads (s : text) : outcome Jsonable :=
  if starts_with [65279] s then Raise JSONDecodeError
  else
    try! (obj, rest) := scan_once (2 * length s + 2) (skip_ws s) in
    match skip_ws rest with
    | [] => Ok obj
    | _ :: _ => Raise JSONDecodeError
    end.

(** *** UTF-8: [str.encode()] and [bytes.decode()] *)

(** Only applied to numbers below 256. *)
Definition byte_of_N (n : N) : byte :=
  match Byte.of_N n with
  | Some b => b
  | None => x00
  end.

Definition is_surrogate (c : N) : bool := (55296 <=? c) && (c <=? 57343).

Definition utf8_encode_char (c : N) : outcome (list byte) :=
  if c <? 128 then Ok [byte_of_N c]
  else if c <? 2048 then Ok [byte_of_N (192 + c / 64); byte_of_N (128 + c mod 64)]
  else if is_surrogate c then Raise UnicodeEncodeError
  else if c <? 65536 then
    Ok [byte_of_N (224 + c / 4096); byte_of_N (128 + (c / 64) mod 64);
        byte_of_N (128 + c mod 64)]
  else if c <? 1114112 then
    Ok [byte_of_N (240 + c / 262144); byte_of_N (128 + (c / 4096) mod 64);
        byte_of_N (128 + (c / 64) mod 64); byte_of_N (128 + c mod 64)]
  else Raise UnicodeEncodeError.

Fixpoint utf8_encode (s : text) : outcome (list byte) :=
  match s with
  | [] => Ok []
  | c :: s' =>
      try! bs := utf8_encode_char c in
      try! rest := utf8_encode s' in
      Ok (bs ++ rest)
  end.

Definition in_range (lo hi n : N) : bool := (lo <=? n) && (n <=? hi).

(** Strict decoding: well-formed sequences only (no overlong forms, no
    surrogates, nothing above U+10FFFF). *)
Fixpoint utf8_decode (bs : list byte) : outcome text :=
  match bs with
  | [] => Ok []
  | b0 :: r0 =>
      let n0 := Byte.to_N b0 in
      if n0 <? 128 then
        try! rest := utf8_decode r0 in Ok (n0 :: rest)
      else if n0 <? 194 then Raise UnicodeDecodeError
      else if n0 <? 224 then
        match r0 with
        | b1 :: r1 =>
            let n1 := Byte.to_N b1 in
            if in_range 128 191 n1 then
              try! rest := utf8_decode r1 in
              Ok ((n0 - 192) * 64 + (n1 - 128) :: rest)
            else Raise UnicodeDecodeError
        | _ => Raise UnicodeDecodeError
        end
      else if n0 <? 240 then
        match r0 with
        | b1 :: b2 :: r2 =>
            let n1 := Byte.to_N b1 in
            let n2 := Byte.to_N b2 in
            let lo := if n0 =? 224 then 160 else 128 in
            let hi := if n0 =? 237 then 159 else 191 in
            if in_range lo hi n1 && in_range 128 191 n2 then
              try! rest := utf8_decode r2 in
              Ok ((n0 - 224) * 4096 + (n1 - 128) * 64 + (n2 - 128) :: rest)
            else Raise UnicodeDecodeError
        | _ => Raise UnicodeDecodeError
        end
      else if n0 <? 245 then
        match r0 with
        | b1 :: b2 :: b3 :: r3 =>
            let n1 := Byte.to_N b1 in
            let n2 := Byte.to_N b2 in
            let n3 := Byte.to_N b3 in
            let lo := if n0 =? 240 then 144 else 128 in
            let hi := if n0 =? 244 then 143 else 191 in
            if in_range lo hi n1 && in_range 128 191 n2 && in_range 128 191 n3 then
              try! rest := utf8_decode r3 in
              Ok ((n0 - 240) * 262144 + (n1 - 128) * 4096 + (n2 - 128) * 64
                  + (n3 - 128) :: rest)
            else Raise UnicodeDecodeError
        | _ => Raise UnicodeDecodeError
        end
      else Raise UnicodeDecodeError
  end.

(* ================================================================= *)
(** ** Part 3. The classes of the module *)

Definition default_port : Z := 42042.

(** *** Streams

    A reader holds the bytes its peer sends before end-of-input, and the
    limit on the length of a line that [asyncio] gives it (65536 unless the
    stream was opened otherwise); a writer the bytes handed to the
    transport so far.  [close_error] is the error, if any, that
    [wait_closed()] surfaces for this transport.  Flow control ([drain])
    and the loss of a connection in the middle of a write are not modelled:
    a write always gets through. *)
Record StreamReader : Type := {
  incoming : list byte;
  eof_fed : bool;
  limit : N
}.

Record StreamWriter : Type := {
  written : list byte;
  closed : bool;
  close_error : option exn
}.

Definition newline : byte := x0a.

(** The bytes up to and including the first newline, or all of them when
    there is none, and what follows. *)
Fixpoint split_line (bs : list byte) : list byte * list byte :=
  match bs with
  | [] => ([], [])
  | b :: r =>
      if Byte.eqb b newline then ([b], r)
      else let '(line, rest) := split_line r in (b :: line, rest)
  end.

(** How many bytes come before the first newline, or before the end of
    input when there is none. *)
Fixpoint before_newline (bs : list byte) : N :=
  match bs with
  | [] => 0
  | b :: r => if Byte.eqb b newline then 0 else 1 + before_newline r
  end.

(** The reader once everything up to [rest] was taken off it. *)
Definition consume (rest : list byte) (r : StreamReader) : StreamReader :=
  {| incoming := rest; eof_fed := eof_fed r; limit := limit r |}.

(** [await reader.readline()]: the line with its newline, or what was left
    at the end of input; [ValueError] when more bytes than the limit come
    before the newline (or before the end of input), and these bytes are
    dropped. *)
Definition readline : St StreamReader (list byte) :=
  fun r =>
    let '(line, rest) := split_line (incoming r) in
    if limit r <? before_newline (incoming r) then (Raise ValueError, consume rest r)
    else (Ok line, consume rest r).

Definition feed_eof (r : StreamReader) : StreamReader :=
  {| incoming := incoming r; eof_fed := true; limit := limit r |}.

(** [writer.write(data)] *)
Definition write (data : list byte) (w : StreamWriter) : StreamWriter :=
  {| written := written w ++ data; closed := closed w; close_error := close_error w |}.

(** [writer.close()] *)
Definition writer_close (w : StreamWriter) : StreamWriter :=
  {| written := written w; closed := true; close_error := close_error w |}.

(** *** [HijackClient] *)

(** [_metadata] is [None] here while the attribute is not set yet;
    [_starting_metadata] is a Python value, [JNull] being [None]. *)
Record HijackClient : Type := {
  _metadata : option Jsonable;
  _starting_metadata : Jsonable;
  _reader : StreamReader;
  _writer : StreamWriter
}.

Definition set_metadata (m : Jsonable) (c : HijackClient) : HijackClient :=
  {| _metadata := Some m; _starting_metadata := _starting_metadata c;
     _reader := _reader c; _writer := _writer c |}.

Definition set_starting_metadata (m : Jsonable) (c : HijackClient) : HijackClient :=
  {| _metadata := _metadata c; _starting_metadata := m;
     _reader := _reader c; _writer := _writer c |}.

Definition set_reader (r : StreamReader) (c : HijackClient) : HijackClient :=
  {| _metadata := _metadata c; _starting_metadata := _starting_metadata c;
     _reader := r; _writer := _writer c |}.

Definition set_writer (w : StreamWriter) (c : HijackClient) : HijackClient :=
  {| _metadata := _metadata c; _starting_metadata := _starting_metadata c;
     _reader := _reader c; _writer := w |}.

Definition metadata_item (self : HijackClient) (k : text) : outcome Jsonable :=
  match _metadata self with
  | None => Raise AttributeError
  | Some m => py_getitem m k
  end.

Definition name (self : HijackClient) : outcome Jsonable :=
  metadata_item self (txt "name").

Definition lobby (self : HijackClient) : outcome Jsonable :=
  metadata_item self (txt "lobby").

Definition others (self : HijackClient) : outcome Jsonable :=
  py_getitem (_starting_metadata self) (txt "others").

Definition contains_newline (plod : text) : bool := existsb (N.eqb 10) plod.

Definition _send_message_raw (plod : text) : St HijackClient unit :=
  fun self =>
    if contains_newline plod then
      (Raise (Exception "Message payload contained newline"), self)
    else
      match utf8_encode (plod ++ [10]) with
      | Ok data => (Ok tt, set_writer (write data (_writer self)) self)
      | Raise e => (Raise e, self)
      | Beyond => (Beyond, self)
      end.

Definition ends_with_newline (res : text) : bool :=
  match last res with
  | Some c => c =? 10
  | None => false
  end.

Definition _read_message_raw : St HijackClient (option text) :=
  fun self =>
    let '(line, r) := readline (_reader self) in
    let self' := set_reader r self in
    match try! data := line in utf8_decode data with
    | Ok res =>
        if negb (ends_with_newline res) || (length res =? 0)%nat
        then (Ok None, self')
        else (Ok (Some res), self')
    | Raise e => (Raise e, self')
    | Beyond => (Beyond, self')
    end.

Definition send_message (msg : Jsonable) : St HijackClient unit :=
  _send_message_raw (dumps msg).

(** The result is a Python value: [JNull] is the [None] returned for a
    closed connection. *)
Definition read_message : St HijackClient Jsonable :=
  do! msg_raw := _read_message_raw in
  match msg_raw with
  | None => sret JNull
  | Some line => slift (loads line)
  end.

Definition is_None (v : Jsonable) : bool :=
  match v with JNull => true | _ => false end.

Definition starting_metadata (others : list Jsonable) : Jsonable :=
  JDict [(txt "state", JStr (txt "starting")); (txt "others", JList others)].

Definition send_starting_metadata (others : list Jsonable) : St HijackClient unit :=
  fun self =>
    if negb (is_None (_starting_metadata self)) then
      (Raise (Exception "Tried to send starting metadata twice"), self)
    else
      send_message (starting_metadata others)
        (set_starting_metadata (starting_metadata others) self).

Definition close : St HijackClient unit :=
  fun self =>
    let self1 := set_writer (writer_close (_writer self)) self in
    match close_error (_writer self) with
    | Some e => (Raise e, self1)
    | None => (Ok tt, set_reader (feed_eof (_reader self1)) self1)
    end.

(** [HijackClient(reader, writer, do_not_call_this_function)] *)
Definition HijackClient_init (reader : StreamReader) (writer : StreamWriter)
    (do_not_call_this_function : Z) : outcome HijackClient :=
  if negb (do_not_call_this_function =? 42)%Z then
    Raise (Exception
      "Do not call HijackClient() directly! Use connect() or HijackServer instead")
  else
    Ok {| _metadata := None; _starting_metadata := JNull;
          _reader := reader; _writer := writer |}.

Definition finish_connect_server (reader : StreamReader) (writer : StreamWriter)
    : outcome HijackClient :=
  try! this := HijackClient_init reader writer 42 in
  let '(res, this') := read_message this in
  try! metadata := res in
  Ok (set_metadata metadata this').

(** *** [HijackLobby] *)

(** [_members] is keyed by what [hash] and [==] see of the member's name. *)
Record HijackLobby : Type := {
  lobby_id : Jsonable;
  _members : list (pykey * HijackClient)
}.

Definition HijackLobby_init (lobby_id : Jsonable) : HijackLobby :=
  {| lobby_id := lobby_id; _members := [] |}.

Definition set_members (ms : list (pykey * HijackClient)) (l : HijackLobby)
    : HijackLobby :=
  {| lobby_id := lobby_id l; _members := ms |}.

Definition add_remote (remote : HijackClient) : St HijackLobby unit :=
  fun self =>
    match try! n := name remote in py_hash n with
    | Ok k =>
        if dict_contains (_members self) k then
          (Raise (Exception "Duplicate name in lobby"), self)
        else (Ok tt, set_members (dict_set (_members self) k remote) self)
    | Raise e => (Raise e, self)
    | Beyond => (Beyond, self)
    end.

Definition members (self : HijackLobby) : list HijackClient :=
  dict_values (_members self).

(** The argument of [__contains__] and [get_other_members]:
    [Union[str, HijackClient]]. *)
Inductive name_or_client : Type :=
| ByName (s : text)
| ByClient (c : HijackClient).

(** [item in self._members].  A [HijackClient] defines neither [__eq__] nor
    [__hash__]: it hashes by identity and is equal to none of the keys,
    which are values read from JSON. *)
Definition key_matches (item : name_or_client) (k : pykey) : bool :=
  match item with
  | ByName s => bool_decide (k = KStr s)
  | ByClient _ => false
  end.

Definition __contains__ (self : HijackLobby) (item : name_or_client) : outcome bool :=
  let found := existsb (key_matches item) (dict_keys (_members self)) in
  match item with
  | ByClient c => try! excluded := name c in Ok found
  | ByName _ => Ok found
  end.

Fixpoint ofilter {A} (f : A -> outcome bool) (l : list A) : outcome (list A) :=
  match l with
  | [] => Ok []
  | x :: l' =>
      try! keep := f x in
      try! rest := ofilter f l' in
      Ok (if keep then x :: rest else rest)
  end.

Fixpoint omap {A B} (f : A -> outcome B) (l : list A) : outcome (list B) :=
  match l with
  | [] => Ok []
  | x :: l' =>
      try! y := f x in
      try! rest := omap f l' in
      Ok (y :: rest)
  end.

Definition get_other_members (self : HijackLobby) (excluded : name_or_client)
    : outcome (list HijackClient) :=
  try! excluded :=
    match excluded with
    | ByClient c => name c
    | ByName s => Ok (JStr s)
    end in
  ofilter (fun i => try! n := name i in Ok (negb (py_eqb n excluded))) (members self).

(** *** [HijackServerHandler] and [HijackServer] *)

(** The two abstract methods.  [run_lobby] may do to the lobby and its
    members whatever it likes, and may raise. *)
Record HijackServerHandler : Type := {
  check_lobby_complete : HijackLobby -> bool;
  run_lobby : St HijackLobby unit
}.

(** What the server does to the world, in the order it does it. *)
Inductive event : Type :=
| Unlisted (key : pykey)
| SentStarting (member : pykey) (others : list Jsonable) (result : outcome unit)
| RanLobby (arg : HijackLobby) (result : outcome unit)
| ClosedMember (member : pykey) (result : outcome unit).

(** A lobby object is created by [_handle_client] only, is stored under one
    key of [_building_lobbies] and is referenced from nowhere else until it
    is removed, so the table holds the lobbies themselves.  [journal] is
    ghost state: the events so far. *)
Record HijackServer : Type := {
  _handler : HijackServerHandler;
  _port : Z;
  _building_lobbies : gmap pykey HijackLobby;
  journal : list event
}.

Definition HijackServer_init (handler : HijackServerHandler) (port : Z) : HijackServer :=
  {| _handler := handler; _port := port; _building_lobbies := ∅; journal := [] |}.

Definition set_building_lobbies (t : gmap pykey HijackLobby) (s : HijackServer)
    : HijackServer :=
  {| _handler := _handler s; _port := _port s; _building_lobbies := t;
     journal := journal s |}.

Definition log (evs : list event) (s : HijackServer) : HijackServer :=
  {| _handler := _handler s; _port := _port s;
     _building_lobbies := _building_lobbies s; journal := journal s ++ evs |}.

(** [d.setdefault(key, default)] *)
Definition setdefault (key : pykey) (default : HijackLobby)
    (t : gmap pykey HijackLobby) : gmap pykey HijackLobby :=
  match t !! key with
  | Some _ => t
  | None => <[key := default]> t
  end.

(** Lines 214-226: the handshake, the insertion into the lobby and the
    completion check, with the removal from the table when the lobby is
    complete.  Nothing is awaited between [setdefault] and [del].  The
    result is the lobby to start, if any. *)
Definition enroll (reader : StreamReader) (writer : StreamWriter)
    : St HijackServer (option HijackLobby) :=
  fun self =>
    match
      try! remote := finish_connect_server reader writer in
      try! lobby_name := lobby remote in
      try! key := py_hash lobby_name in
      Ok (remote, lobby_name, key)
    with
    | Ok (remote, lobby_name, key) =>
        let table := setdefault key (HijackLobby_init lobby_name)
                       (_building_lobbies self) in
        let lb := default (HijackLobby_init lobby_name) (table !! key) in
        match add_remote remote lb with
        | (Ok _, lb') =>
            let self1 := set_building_lobbies (<[key := lb']> table) self in
            if negb (check_lobby_complete (_handler self) lb') then (Ok None, self1)
            else
              (Ok (Some lb'),
               log [Unlisted key]
                 (set_building_lobbies (delete key (<[key := lb']> table)) self))
        | (Raise e, lb') => (Raise e, set_building_lobbies (<[key := lb']> table) self)
        | (Beyond, lb') => (Beyond, set_building_lobbies (<[key := lb']> table) self)
        end
    | Raise e => (Raise e, self)
    | Beyond => (Beyond, self)
    end.

(** The arguments of the coroutines of line 228, one per member:
    [list(i.name for i in lobby.get_other_members(remote))]. *)
Definition rosters (lb : HijackLobby)
    : outcome (list (pykey * HijackClient * list Jsonable)) :=
  omap (fun m : pykey * HijackClient =>
          try! os := get_other_members lb (ByClient (snd m)) in
          try! names := omap name os in
          Ok (fst m, snd m, names))
       (_members lb).

Definition first_failure (r r' : outcome unit) : outcome unit :=
  match r with
  | Ok _ => r'
  | _ => r
  end.

(** [asyncio.gather] over the roster sends.  No send suspends, so they run
    one after the other in member order; all of them run, and the first
    failure, if any, is what [gather] raises. *)
Fixpoint gather_sends (jobs : list (pykey * HijackClient * list Jsonable))
    : outcome unit * list (pykey * HijackClient) * list event :=
  match jobs with
  | [] => (Ok tt, [], [])
  | (k, c, os) :: rest =>
      let '(r, c') := send_starting_metadata os c in
      let '(r', cs, evs) := gather_sends rest in
      (first_failure r r', (k, c') :: cs, SentStarting k os r :: evs)
  end.

(** Lines 235-236: [for i in lobby: await i.close()]. *)
Fixpoint close_all (ms : list (pykey * HijackClient))
    : outcome unit * list (pykey * HijackClient) * list event :=
  match ms with
  | [] => (Ok tt, [], [])
  | (k, c) :: rest =>
      let '(r, c') := close c in
      match r with
      | Ok _ =>
          let '(r', cs, evs) := close_all rest in
          (r', (k, c') :: cs, ClosedMember k r :: evs)
      | _ => (r, (k, c') :: rest, [ClosedMember k r])
      end
  end.

(** Lines 228-236, for a lobby that has left the table: the state is the
    lobby, owned by this task from now on, and the server. *)
Definition start_lobby : St (HijackLobby * HijackServer) unit :=
  fun '(lb, self) =>
    match rosters lb with
    | Ok jobs =>
        let '(r, ms1, evs1) := gather_sends jobs in
        let lb1 := set_members ms1 lb in
        let self1 := log evs1 self in
        match r with
        | Ok _ =>
            let '(r2, lb2) := run_lobby (_handler self) lb1 in
            let self2 := log [RanLobby lb1 r2] self1 in
            match r2 with
            | Ok _ =>
                let '(r3, ms3, evs3) := close_all (_members lb2) in
                (r3, (set_members ms3 lb2, log evs3 self2))
            | _ => (r2, (lb2, self2))
            end
        | _ => (r, (lb1, self1))
        end
    | Raise e => (Raise e, (lb, self))
    | Beyond => (Beyond, (lb, self))
    end.

(** The lobby is dropped when the task ends. *)
Definition _handle_client (reader : StreamReader) (writer : StreamWriter)
    : St HijackServer unit :=
  fun self =>
    match enroll reader writer self with
    | (Ok None, self1) => (Ok tt, self1)
    | (Ok (Some lb), self1) =>
        let '(r, (_, self2)) := start_lobby (lb, self1) in (r, self2)
    | (Raise e, self1) => (Raise e, self1)
    | (Beyond, self1) => (Beyond, self1)
    end.

(** *** The client side of the handshake *)

(** [_finish_connect_client(reader, writer, metadata)].  The warnings
    context of line 123 changes nothing: the constructor emits no warning. *)
Definition _finish_connect_client (reader : StreamReader) (writer : StreamWriter)
    (metadata : Jsonable) : outcome HijackClient :=
  try! this := HijackClient_init reader writer 42 in
  let this1 := set_metadata metadata this in
  let '(sent, this2) := send_message metadata this1 in
  try! _ := sent in
  let '(res, this3) := read_message this2 in
  try! starting := res in
  Ok (set_starting_metadata starting this3).


(** *** [async with] *)

(** [__aenter__]: the client itself. *)
Definition __aenter__ : St HijackClient HijackClient :=
  fun self => (Ok self, self).

(** [__aexit__(exc_type, exc_val, exc_tb)]: it closes and returns [None],
    so it does not swallow the exception of the body. *)
Definition __aexit__ : St HijackClient unit := close.

(** [async with client: body].  The exit runs whether the body returned
    or raised; an exception of the exit takes the place of the result. *)
Definition async_with {A} (body : St HijackClient A) : St HijackClient A :=
  fun self =>
    match __aenter__ self with
    | (Ok _, self0) =>
        match body self0 with
        | (Beyond, self1) => (Beyond, self1)
        | (r, self1) =>
            let '(x, self2) := __aexit__ self1 in
            (try! _ := x in r, self2)
        end
    | (Raise e, self0) => (Raise e, self0)
    | (Beyond, self0) => (Beyond, self0)
    end.

(** *** Looking members up *)

(** [lobby[name]] *)
Definition __getitem__ (self : HijackLobby) (name : Jsonable) : outcome HijackClient :=
  try! k := py_hash name in
  match dict_get (_members self) k with
  | Some c => Ok c
  | None => Raise KeyError
  end.

(** [lobby.get(name)] *)
Definition get (self : HijackLobby) (name : Jsonable) : outcome (option HijackClient) :=
  try! k := py_hash name in
  Ok (dict_get (_members self) k).

(** [iter(lobby)], as the list of what it yields. *)
Definition __iter__ (self : HijackLobby) : list HijackClient :=
  dict_values (_members self).

(** *** [HijackServer.run] and [HijackServer.stop] *)

(** An [asyncio.Server], as far as the module uses it: whether it is
    listening. *)
Record Server : Type := {
  serving : bool
}.

(** [server.start_serving()] and [server.close()] *)
Definition start_serving (s : Server) : Server := {| serving := true |}.
Definition server_close (s : Server) : Server := {| serving := false |}.

(** A server object with its attribute [_sock], which is [None] until
    [run] sets it. *)
Record Listener : Type := {
  server : HijackServer;
  _sock : option Server
}.

Definition set_sock (sock : Server) (self : Listener) : Listener :=
  {| server := server self; _sock := Some sock |}.

(** [run], up to the point where it waits (lines 239-242); line 243
    returns once the listener is closed, which is what [stop] does from
    another task.  [start_server] stands for [asyncio.start_server] on the
    port: the listener, or the error of binding. *)
Definition run (start_server : Z -> outcome Server) : St Listener unit :=
  fun self =>
    match _sock self with
    | Some _ => (Raise (Exception "Server is already running"), self)
    | None =>
        match start_server (_port (server self)) with
        | Ok sock => (Ok tt, set_sock (start_serving sock) self)
        | Raise e => (Raise e, self)
        | Beyond => (Beyond, self)
        end
    end.

(** [stop] *)
Definition stop : St Listener unit :=
  fun self =>
    match _sock self with
    | None => (Raise AttributeError, self)
    | Some sock => (Ok tt, set_sock (server_close sock) self)
    end.

(** *** The handlers of the examples *)



(** *** The test for a win of examples/noughts_and_crosses_server.py *)

(** [l[i]] for an index that is not negative.  Past the end Python raises
    [IndexError], which is not among the modelled exceptions: the run
    leaves the fragment. *)
Definition item {A} (l : list A) (i : nat) : outcome A :=
  match nth_error l i with
  | Some x => Ok x
  | None => Beyond
  end.

(** [all([i == side for i in cells])] *)
Definition all_are (side : text) (cells : list text) : bool :=
  forallb (fun i => bool_decide (i = side)) cells.

(** [a or b] *)
Definition or_else (a b : outcome bool) : outcome bool :=
  try! x := a in
  if x then Ok true else b.

(** The condition of lines 50-53 for one [step]. *)
Definition line_complete (board : list (list text)) (side : text) (step : nat)
    : outcome bool :=
  or_else (try! row := item board step in Ok (all_are side row))
    (or_else (try! cells := omap (fun i => item i step) board in Ok (all_are side cells))
       (or_else
          (try! cells := omap (fun i => try! row := item board i in item row (2 - i))
                           (seq 0 2) in
           Ok (all_are side cells))
          (try! cells := omap (fun i => try! row := item board (2 - i) in item row i)
                           (seq 0 2) in
           Ok (all_are side cells)))).

(** Lines 49-55: whether the loop over [range(3)] calls the game for the
    side that has just played. *)
Fixpoint any_step (test : nat -> outcome bool) (steps : list nat) : outcome bool :=
  match steps with
  | [] => Ok false
  | step :: rest =>
      try! found := test step in
      if found then Ok true else any_step test rest
  end.

Definition wins (board : list (list text)) (side : text) : outcome bool :=
  any_step (line_complete board side) (seq 0 3).

(* ================================================================= *)
(** ** Part 4. Predicates used in the statements *)

(** A member is stored under the key of the name it reports. *)
Definition stored_under_own_name (m : pykey * HijackClient) : bool :=
  match try! n := name (snd m) in py_hash n with
  | Ok k => bool_decide (k = fst m)
  | _ => false
  end.

Definition lobby_ok (l : HijackLobby) : bool :=
  forallb stored_under_own_name (_members l).

(** The characters [json.dumps] emits: printable ASCII. *)
Definition printable (c : N) : Prop := 32 <= c /\ c <= 126.

(** The bytes of a message on the wire: its text and a line terminator. *)
Definition wire (msg : Jsonable) : list byte :=
  List.map byte_of_N (dumps msg ++ [10]).

(** The names of the members of a lobby other than the one stored
    under [k], in the order of the lobby. *)
Definition other_names (ms : list (pykey * HijackClient)) (k : pykey) : list Jsonable :=
  flat_map (fun m => if decide (fst m = k) then []
                     else match name (snd m) with
                          | Ok n => [n]
                          | _ => []
                          end) ms.

(** A connection after the roster [os] was sent to it: the roster is
    recorded and its line has been written. *)
Definition started (os : list Jsonable) (c : HijackClient) : HijackClient :=
  set_writer (write (wire (starting_metadata os)) (_writer c))
    (set_starting_metadata (starting_metadata os) c).

Definition announced (ms : list (pykey * HijackClient)) : list (pykey * HijackClient) :=
  List.map (fun m => (fst m, started (other_names ms (fst m)) (snd m))) ms.

(** The coroutine arguments and the journal entries of the roster sends
    of a lobby whose members are [ms]. *)
Definition roster_jobs (ms : list (pykey * HijackClient))
    : list (pykey * HijackClient * list Jsonable) :=
  List.map (fun m => (fst m, snd m, other_names ms (fst m))) ms.

Definition roster_events (ms : list (pykey * HijackClient)) : list event :=
  List.map (fun m => SentStarting (fst m) (other_names ms (fst m)) (Ok tt)) ms.

Definition not_started (m : pykey * HijackClient) : bool :=
  is_None (_starting_metadata (snd m)).

(** What holds of every lobby in the table: members under their own names,
    no name twice, no roster sent yet. *)
Definition building_ok (l : HijackLobby) : Prop :=
  lobby_ok l = true
  /\ NoDup (dict_keys (_members l))
  /\ forallb not_started (_members l) = true.

Definition server_ok (s : HijackServer) : Prop :=
  forall k l, _building_lobbies s !! k = Some l -> building_ok l.

(** Closing. *)
Definition closes_cleanly (m : pykey * HijackClient) : bool :=
  match close_error (_writer (snd m)) with
  | None => true
  | Some _ => false
  end.

Definition closed_member (m : pykey * HijackClient) : pykey * HijackClient :=
  (fst m, snd (close (snd m))).

Definition is_closed (m : pykey * HijackClient) : bool := closed (_writer (snd m)).

(** *** Messages that are read back as sent *)

Definition is_high (c : N) : bool := (55296 <=? c) && (c <=? 56319).
Definition is_low (c : N) : bool := (56320 <=? c) && (c <=? 57343).

(** Whether [scanstring], having read the escape of a high surrogate,
    finds the escape of a low surrogate next (or half of an escape). *)
Definition joins_with_next (t : text) : bool :=
  match t with
  | b :: u :: s4 =>
      if (b =? 92) && (u =? 117) then
        match s4 with
        | g1 :: g2 :: g3 :: g4 :: _ =>
            match decode_uXXXX g1 g2 g3 g4 with
            | Some uni2 => is_low uni2
            | None => true
            end
        | _ => true
        end
      else false
  | _ => false
  end.

Fixpoint no_joined_surrogates (s : text) : bool :=
  match s with
  | a :: r =>
      match r with
      | b :: _ => negb (is_high a && is_low b)
      | [] => true
      end && no_joined_surrogates r
  | [] => true
  end.

Definition valid_str (s : text) : bool :=
  forallb (fun c => c <? 1114112) s && no_joined_surrogates s.

(** What may follow an integer for the token to end there. *)
Definition ends_number (rest : text) : bool :=
  match rest with
  | [] => true
  | c :: _ => negb (is_digit c) && negb (c =? 46) && negb (c =? 101) && negb (c =? 69)
  end.

Fixpoint jsize (o : Jsonable) : nat :=
  match o with
  | JList items => S (length items + list_sum (List.map jsize items))
  | JDict items =>
      S (length items + list_sum (List.map (fun kv => jsize (snd kv)) items))
  | _ => 1
  end.

Fixpoint unique_keys {V} (d : list (text * V)) : bool :=
  match d with
  | [] => true
  | kv :: d' => negb (dict_contains d' (fst kv)) && unique_keys d'
  end.

(** What every Python value satisfies, code points in range and no key
    twice in a dict, and the one restriction: no string holds a high
    surrogate directly followed by a low surrogate. *)
Fixpoint valid_message (o : Jsonable) : bool :=
  match o with
  | JStr s => valid_str s
  | JList items => forallb valid_message items
  | JDict items =>
      unique_keys items
      && forallb (fun kv => valid_str (fst kv) && valid_message (snd kv)) items
  | _ => true
  end.

Definition reads_back (o : Jsonable) : Prop :=
  valid_message o = true ->
  forall (fuel : nat) (rest : text),
    (jsize o <= fuel)%nat -> ends_number rest = true ->
    scan_once fuel (dumps o ++ rest) = Ok (o, rest).

Definition pair_text (kv : text * Jsonable) : text :=
  encode_basestring_ascii (fst kv) ++ 58 :: dumps (snd kv).

(** *** Sample data for the closed instances *)

Definition bytes_of (s : string) : list byte :=
  List.map byte_of_ascii (list_ascii_of_string s).

Definition line_of (s : string) : list byte := bytes_of s ++ [newline].



Definition sample_reader (data : list byte) : StreamReader :=
  {| incoming := data; eof_fed := false; limit := 65536 |}.

Definition sample_writer : StreamWriter :=
  {| written := []; closed := false; close_error := None |}.

Definition broken_writer : StreamWriter :=
  {| written := []; closed := false; close_error := Some ConnectionResetError |}.

Definition identity (n l : string) : Jsonable :=
  JDict [(txt "name", JStr (txt n)); (txt "lobby", JStr (txt l))].


Definition sample_client (n l : string) : HijackClient :=
  {| _metadata := Some (identity n l); _starting_metadata := JNull;
     _reader := sample_reader []; _writer := sample_writer |}.

Definition alice : HijackClient := sample_client "alice" "t".
Definition bob : HijackClient := sample_client "bob" "t".

Definition lobby_with_alice : HijackLobby :=
  {| lobby_id := JStr (txt "t"); _members := [(KStr (txt "alice"), alice)] |}.

Definition listening (data : list byte) : HijackClient :=
  {| _metadata := None; _starting_metadata := JNull;
     _reader := sample_reader data; _writer := sample_writer |}.



(** The connection object as [finish_connect_server] creates it, before
    the first message is read. *)
Definition unconnected (reader : StreamReader) (writer : StreamWriter) : HijackClient :=
  {| _metadata := None; _starting_metadata := JNull;
     _reader := reader; _writer := writer |}.

Definition sample_handler : HijackServerHandler :=
  {| check_lobby_complete := fun l => (length (members l) =? 2)%nat;
     run_lobby := fun l => (Ok tt, l) |}.

Definition sample_server : HijackServer :=
  HijackServer_init sample_handler default_port.

Definition alice_line : list byte := wire (identity "alice" "t").
Definition bob_line : list byte := wire (identity "bob" "t").

Definition server_with_alice : HijackServer :=
  snd (_handle_client (sample_reader alice_line) sample_writer sample_server).

Definition pair_lobby : HijackLobby :=
  {| lobby_id := JStr (txt "t");
     _members := [(KStr (txt "alice"), alice); (KStr (txt "bob"), bob)] |}.

(** The same lobby when the connection of alice cannot be closed. *)
Definition frail_lobby : HijackLobby :=
  {| lobby_id := JStr (txt "t");
     _members := [(KStr (txt "alice"), set_writer broken_writer alice);
                  (KStr (txt "bob"), bob)] |}.

(** How [enroll] can end: before the table is touched, or after the
    connection was offered to the lobby of its key. *)
Inductive enrolled (reader : StreamReader) (writer : StreamWriter)
    (self : HijackServer) : outcome (option HijackLobby) * HijackServer -> Prop :=
| enrolled_rejected (r : outcome (option HijackLobby)) :
    (forall x, r <> Ok x) -> enrolled reader writer self (r, self)
| enrolled_joined remote lobby_name key r lb' :
    finish_connect_server reader writer = Ok remote ->
    lobby remote = Ok lobby_name ->
    py_hash lobby_name = Ok key ->
    add_remote remote
      (default (HijackLobby_init lobby_name) (_building_lobbies self !! key))
    = (r, lb') ->
    enrolled reader writer self
      (match r with
       | Ok _ =>
           if check_lobby_complete (_handler self) lb' then
             (Ok (Some lb'),
              log [Unlisted key]
                (set_building_lobbies (delete key (_building_lobbies self)) self))
           else
             (Ok None,
              set_building_lobbies (<[key := lb']> (_building_lobbies self)) self)
       | Raise e =>
           (Raise e, set_building_lobbies (<[key := lb']> (_building_lobbies self)) self)
       | Beyond =>
           (Beyond, set_building_lobbies (<[key := lb']> (_building_lobbies self)) self)
       end).

(** *** Vocabulary of the further properties *)




(** The JSON text of an object with these members in this order, as a
    peer may write it: a key may come more than once. *)
Definition object_text (items : list (text * Jsonable)) : text :=
  123 :: join [44] (List.map pair_text items) ++ [125].

(** The value of the last member with key [k]. *)
Definition last_value {V} (items : list (text * V)) (k : text) : option V :=
  dict_get (rev items) k.





(** Calls of [run] and [stop], one after the other, whatever they
    return. *)
Inductive call : Type :=
| CallRun
| CallStop.

Definition after_call (start_server : Z -> outcome Server) (self : Listener) (c : call)
    : Listener :=
  match c with
  | CallRun => snd (run start_server self)
  | CallStop => snd (stop self)
  end.

Definition after_calls (start_server : Z -> outcome Server) (calls : list call)
    (self : Listener) : Listener :=
  fold_left (after_call start_server) calls self.

(** *** More sample data *)


Definition sample_listener : Listener :=
  {| server := sample_server; _sock := None |}.

Definition sample_start (port : Z) : outcome Server := Ok {| serving := true |}.

(** A handler whose game fails. *)
Definition failing_handler : HijackServerHandler :=
  {| check_lobby_complete := fun l => (length (members l) =? 2)%nat;
     run_lobby := sraise (Exception "game over") |}.

Definition failing_server_with_alice : HijackServer :=
  snd (_handle_client (sample_reader alice_line) sample_writer
         (HijackServer_init failing_handler default_port)).

(* ================================================================= *)
(** ** Part 5. Lemmas and theorems *)

(** *** Dictionaries *)

Section DictFacts.
Context {K V : Type} `{EqDecision K}.
Implicit Types (d : list (K * V)) (k : K) (v : V).

Lemma dict_contains_false d k :
  dict_contains d k = false <-> dict_get d k = None.
Proof. unfold dict_contains. destruct (dict_get d k); split; congruence. Qed.

Lemma dict_set_fresh d k v :
  dict_get d k = None -> dict_set d k v = d ++ [(k, v)].
Proof.
  induction d as [|[k' v'] d IH]; simpl; [done|].
  destruct (decide (k' = k)); [done|]. intros Hd. by rewrite IH.
Qed.

Lemma dict_get_set_eq d k v : dict_get (dict_set d k v) k = Some v.
Proof.
  induction d as [|[k' v'] d IH]; simpl.
  - by rewrite decide_True.
  - destruct (decide (k' = k)) as [->|Hne]; simpl.
    + by rewrite decide_True.
    + by rewrite decide_False.
Qed.

Lemma dict_get_set_ne d k k' v :
  k <> k' -> dict_get (dict_set d k v) k' = dict_get d k'.
Proof.
  intros Hne. induction d as [|[k0 v0] d IH]; simpl.
  - by rewrite decide_False.
  - destruct (decide (k0 = k)) as [->|Hne0]; simpl.
    + by rewrite !decide_False.
    + destruct (decide (k0 = k')); [done|]. apply IH.
Qed.

Lemma dict_get_In d k v : dict_get d k = Some v -> In (k, v) d.
Proof.
  induction d as [|[k' v'] d IH]; simpl; [done|].
  destruct (decide (k' = k)) as [->|]; [intros [= ->]; by left|].
  intros Hd. right. by apply IH.
Qed.

Lemma dict_get_None_keys d k : dict_get d k = None <-> ~ In k (dict_keys d).
Proof.
  induction d as [|[k' v'] d IH]; simpl; [tauto|].
  destruct (decide (k' = k)) as [->|Hne]; [split; [done|intros Hn; exfalso; tauto]|].
  rewrite IH. tauto.
Qed.
End DictFacts.

(** *** The lobby *)

Lemma add_remote_outcome (remote : HijackClient) (self : HijackLobby) :
  match try! n := name remote in py_hash n with
  | Ok k =>
      match dict_get (_members self) k with
      | Some _ => add_remote remote self = (Raise (Exception "Duplicate name in lobby"), self)
      | None =>
          add_remote remote self
          = (Ok tt, set_members (_members self ++ [(k, remote)]) self)
      end
  | Raise e => add_remote remote self = (Raise e, self)
  | Beyond => add_remote remote self = (Beyond, self)
  end.
Proof.
  unfold add_remote, dict_contains.
  destruct (try! n := name remote in py_hash n) as [k|e|]; try done.
  destruct (dict_get (_members self) k) eqn:Hk; [done|].
  by rewrite dict_set_fresh.
Qed.

(** C6.  [add_remote] on a lobby that already has a member of that name
    raises "Duplicate name in lobby" and leaves the lobby exactly as it
    was; when the name is fresh the connection is recorded under it, after
    the members that were there, and all of those remain. *)
Theorem add_remote_duplicate_or_recorded
    (self : HijackLobby) (remote : HijackClient) (n : Jsonable) (k : pykey) :
  name remote = Ok n ->
  py_hash n = Ok k ->
  (dict_contains (_members self) k = true ->
     add_remote remote self = (Raise (Exception "Duplicate name in lobby"), self))
  /\
  (dict_contains (_members self) k = false ->
     exists self',
       add_remote remote self = (Ok tt, self')
       /\ lobby_id self' = lobby_id self
       /\ _members self' = _members self ++ [(k, remote)]
       /\ dict_get (_members self') k = Some remote
       /\ forall k' c, dict_get (_members self) k' = Some c ->
                       dict_get (_members self') k' = Some c).
Proof.
  intros Hn Hk.
  pose proof (add_remote_outcome remote self) as Hadd.
  rewrite Hn in Hadd; simpl in Hadd; rewrite Hk in Hadd.
  unfold dict_contains. destruct (dict_get (_members self) k) eqn:Hget.
  - split; [done|discriminate].
  - split; [discriminate|]. intros _.
    eexists; split; [exact Hadd|]. simpl. repeat split.
    + rewrite <- (dict_set_fresh _ _ _ Hget). apply dict_get_set_eq.
    + intros k' c Hc. rewrite <- (dict_set_fresh _ _ remote Hget).
      rewrite dict_get_set_ne; [done|]. intros ->. congruence.
Qed.

Lemma add_remote_duplicate_or_recorded_witness :
  add_remote alice lobby_with_alice
  = (Raise (Exception "Duplicate name in lobby"), lobby_with_alice)
  /\ exists self',
       add_remote bob lobby_with_alice = (Ok tt, self')
       /\ lobby_id self' = lobby_id lobby_with_alice
       /\ _members self' = _members lobby_with_alice ++ [(KStr (txt "bob"), bob)]
       /\ dict_get (_members self') (KStr (txt "bob")) = Some bob
       /\ forall k' c, dict_get (_members lobby_with_alice) k' = Some c ->
                       dict_get (_members self') k' = Some c.
Proof.
  split.
  - apply (add_remote_duplicate_or_recorded lobby_with_alice alice
             (JStr (txt "alice")) (KStr (txt "alice"))); reflexivity.
  - apply (add_remote_duplicate_or_recorded lobby_with_alice bob
             (JStr (txt "bob")) (KStr (txt "bob"))); reflexivity.
Defined.

Lemma lobby_ok_spec (self : HijackLobby) :
  lobby_ok self = true <->
  forall k c, In (k, c) (_members self) ->
    exists n, name c = Ok n /\ py_hash n = Ok k.
Proof.
  unfold lobby_ok. rewrite forallb_forall. split.
  - intros Hall k c Hin. specialize (Hall _ Hin).
    unfold stored_under_own_name in Hall; simpl in Hall.
    destruct (name c) as [n| |]; simpl in Hall; try discriminate.
    destruct (py_hash n) as [k'| |] eqn:Hh; try discriminate.
    apply bool_decide_eq_true in Hall. subst. eauto.
  - intros Hall [k c] Hin. destruct (Hall _ _ Hin) as (n & Hn & Hh).
    unfold stored_under_own_name; simpl. rewrite Hn; simpl. rewrite Hh.
    by apply bool_decide_eq_true.
Qed.

Lemma add_remote_lobby_ok (remote : HijackClient) (self : HijackLobby) :
  lobby_ok self = true -> lobby_ok (snd (add_remote remote self)) = true.
Proof.
  intros Hok. pose proof (add_remote_outcome remote self) as Hadd.
  destruct (try! n := name remote in py_hash n) as [k|e|] eqn:Hk;
    [|by rewrite Hadd..].
  destruct (dict_get (_members self) k); rewrite Hadd; simpl; [done|].
  unfold lobby_ok in *; simpl. rewrite forallb_app, Hok; simpl.
  unfold stored_under_own_name; simpl. rewrite Hk.
  by rewrite bool_decide_eq_true_2.
Qed.

(** C9.  Every member of a lobby is stored under the key of the name it
    reports: so it is in the empty lobby [HijackLobby(lobby_id)] and so it
    stays through [add_remote], whether the call records the connection or
    raises. *)
Theorem members_stored_under_own_name :
  (forall lobby_id, lobby_ok (HijackLobby_init lobby_id) = true)
  /\ (forall remote self,
        lobby_ok self = true -> lobby_ok (snd (add_remote remote self)) = true)
  /\ (forall self k c,
        lobby_ok self = true ->
        dict_get (_members self) k = Some c ->
        exists n, name c = Ok n /\ py_hash n = Ok k).
Proof.
  split; [done|]. split; [intros; by apply add_remote_lobby_ok|].
  intros self k c Hok Hget. apply (proj1 (lobby_ok_spec self) Hok).
  by apply dict_get_In.
Qed.

Lemma members_stored_under_own_name_witness :
  lobby_ok (snd (add_remote bob lobby_with_alice)) = true
  /\ exists n, name alice = Ok n /\ py_hash n = Ok (KStr (txt "alice")).
Proof.
  destruct members_stored_under_own_name as (_ & Hadd & Hget). split.
  - apply (Hadd bob lobby_with_alice). reflexivity.
  - apply (Hget lobby_with_alice (KStr (txt "alice")) alice); reflexivity.
Defined.

Lemma existsb_key_matches_client (c : HijackClient) (ks : list pykey) :
  existsb (key_matches (ByClient c)) ks = false.
Proof. induction ks; simpl; auto. Qed.

(** C10.  The membership test of a lobby answers [False] for every
    connection object, a member of the lobby or not, as soon as the object
    has a name to read; it never answers [True] for one.  Only a name given
    as a string can test as a member, and it does exactly when it is a key
    of the mapping. *)
Theorem contains_connection_is_false (self : HijackLobby) (c : HijackClient) :
  __contains__ self (ByClient c) <> Ok true
  /\ (forall n, name c = Ok n -> __contains__ self (ByClient c) = Ok false)
  /\ (forall k, lobby_ok self = true -> In (k, c) (_members self) ->
        __contains__ self (ByClient c) = Ok false)
  /\ (forall item, __contains__ self item = Ok true ->
        exists s, item = ByName s /\ dict_contains (_members self) (KStr s) = true).
Proof.
  assert (Hnamed : forall n, name c = Ok n -> __contains__ self (ByClient c) = Ok false).
  { intros n Hn. unfold __contains__. rewrite Hn; simpl.
    by rewrite existsb_key_matches_client. }
  repeat split.
  - unfold __contains__. rewrite existsb_key_matches_client.
    destruct (name c); simpl; congruence.
  - exact Hnamed.
  - intros k Hok Hin.
    destruct (proj1 (lobby_ok_spec self) Hok _ _ Hin) as (n & Hn & _). eauto.
  - intros [s|c'] Htrue.
    + exists s. split; [done|]. unfold __contains__ in Htrue.
      injection Htrue as Hex. apply existsb_exists in Hex as (k & Hin & Hk).
      simpl in Hk. apply bool_decide_eq_true in Hk. subst k.
      unfold dict_contains. destruct (dict_get (_members self) (KStr s)) eqn:Hget; [done|].
      apply dict_get_None_keys in Hget. done.
    + unfold __contains__ in Htrue. rewrite existsb_key_matches_client in Htrue.
      destruct (name c'); simpl in Htrue; congruence.
Qed.

Lemma contains_connection_is_false_witness :
  __contains__ lobby_with_alice (ByClient alice) = Ok false
  /\ __contains__ lobby_with_alice (ByName (txt "alice")) = Ok true.
Proof.
  destruct (contains_connection_is_false lobby_with_alice alice)
    as (_ & _ & Hmember & _).
  split.
  - apply (Hmember (KStr (txt "alice"))); [reflexivity | left; reflexivity].
  - reflexivity.
Defined.

(** *** What [json.dumps] emits *)

Lemma hex_digit_printable (n : N) : n < 16 -> printable (hex_digit n).
Proof. unfold hex_digit, printable. intros Hn. destruct (N.ltb_spec n 10); lia. Qed.

Ltac printable_list :=
  repeat first [apply List.Forall_cons | apply List.Forall_nil];
  try (unfold printable; lia).

Lemma u_escape_printable (n : N) : Forall printable (u_escape n).
Proof.
  unfold u_escape. printable_list; apply hex_digit_printable, N.mod_lt; lia.
Qed.

Lemma escape_char_printable (c : N) : Forall printable (escape_char c).
Proof.
  unfold escape_char.
  repeat match goal with
         | |- context [if ?b then _ else _] => destruct b eqn:?
         end;
    try solve [printable_list].
  - printable_list.
    match goal with
    | H : (_ <=? _) && (_ <=? _) = true |- _ =>
        apply andb_true_iff in H as [H1 H2]; apply N.leb_le in H1, H2; by split
    end.
  - apply u_escape_printable.
  - apply Forall_app; split; apply u_escape_printable.
Qed.

Lemma encode_basestring_ascii_printable (s : text) :
  Forall printable (encode_basestring_ascii s).
Proof.
  unfold encode_basestring_ascii. apply List.Forall_cons; [unfold printable; lia|].
  apply Forall_app; split; [|printable_list].
  induction s as [|c s IH]; simpl; [constructor|].
  apply Forall_app; split; [apply escape_char_printable|exact IH].
Qed.

Lemma uint_text_digits (u : Decimal.uint) : Forall (fun c => is_digit c = true) (uint_text u).
Proof. induction u; simpl; constructor; auto. Qed.

Lemma is_digit_printable (c : N) : is_digit c = true -> printable c.
Proof.
  unfold is_digit, printable. intros H. apply andb_true_iff in H as [H1 H2].
  apply N.leb_le in H1, H2. lia.
Qed.

Lemma int_repr_printable (z : Z) : Forall printable (int_repr z).
Proof.
  destruct z; simpl.
  - printable_list.
  - eapply Forall_impl; [apply uint_text_digits|]. apply is_digit_printable.
  - apply List.Forall_cons; [unfold printable; lia|].
    eapply Forall_impl; [apply uint_text_digits|]. apply is_digit_printable.
Qed.

Lemma join_Forall (Q : N -> Prop) (sep : text) (parts : list text) :
  Forall Q sep -> Forall (Forall Q) parts -> Forall Q (join sep parts).
Proof.
  intros Hsep. induction 1 as [|p ps Hp Hps IH]; simpl; [constructor|].
  destruct ps as [|p' ps']; [done|].
  apply Forall_app; split; [done|]. apply Forall_app; split; [done|]. exact IH.
Qed.

Lemma printable_forallb (s : text) :
  forallb (fun c => (32 <=? c) && (c <=? 126)) s = true -> Forall printable s.
Proof.
  rewrite forallb_forall, Forall_forall. intros Hall c Hin.
  apply list_elem_of_In in Hin. specialize (Hall _ Hin).
  apply andb_true_iff in Hall as [H1 H2]. apply N.leb_le in H1, H2. by split.
Qed.

Lemma dumps_printable (o : Jsonable) : Forall printable (dumps o).
Proof.
  induction o as [|b|z|s|items IH|items IH] using Jsonable_nested_ind; cbn.
  - by apply printable_forallb.
  - destruct b; by apply printable_forallb.
  - apply int_repr_printable.
  - apply encode_basestring_ascii_printable.
  - apply List.Forall_cons; [unfold printable; lia|].
    apply Forall_app; split; [|printable_list].
    apply join_Forall; [printable_list|].
    induction IH; cbn; constructor; auto.
  - apply List.Forall_cons; [unfold printable; lia|].
    apply Forall_app; split; [|printable_list].
    apply join_Forall; [printable_list|].
    induction IH as [|[k v] l Hv Hl IHl]; cbn; constructor; auto.
    apply Forall_app; split; [apply encode_basestring_ascii_printable|].
    apply List.Forall_cons; [unfold printable; lia|]. exact Hv.
Qed.

Lemma printable_no_newline (s : text) : Forall printable s -> contains_newline s = false.
Proof.
  unfold contains_newline. induction 1 as [|c s Hc Hs IH]; cbn [existsb]; [done|].
  rewrite IH, orb_false_r. apply N.eqb_neq. unfold printable in Hc. lia.
Qed.

Lemma utf8_encode_ascii (s : text) :
  Forall (fun c => c < 128) s -> utf8_encode s = Ok (List.map byte_of_N s).
Proof.
  induction 1 as [|c s Hc Hs IH]; simpl; [done|].
  unfold utf8_encode_char. rewrite (proj2 (N.ltb_lt c 128) Hc). simpl.
  by rewrite IH.
Qed.

Lemma dumps_line_ascii (o : Jsonable) : Forall (fun c => c < 128) (dumps o ++ [10]).
Proof.
  apply Forall_app; split; [|apply List.Forall_cons; [lia|constructor]].
  eapply Forall_impl; [apply dumps_printable|]. unfold printable. intros; lia.
Qed.

Lemma send_message_writes (msg : Jsonable) (self : HijackClient) :
  send_message msg self = (Ok tt, set_writer (write (wire msg) (_writer self)) self).
Proof.
  unfold send_message, _send_message_raw.
  rewrite (printable_no_newline _ (dumps_printable msg)).
  by rewrite (utf8_encode_ascii _ (dumps_line_ascii msg)).
Qed.

Lemma byte_of_N_to_N (n : N) : n < 256 -> Byte.to_N (byte_of_N n) = n.
Proof.
  intros Hn. unfold byte_of_N. destruct (Byte.of_N n) as [b|] eqn:Hb.
  - by apply Byte.to_of_N.
  - apply Byte.of_N_None_iff in Hb. lia.
Qed.

Lemma wire_shape (msg : Jsonable) :
  wire msg = List.map byte_of_N (dumps msg) ++ [newline]
  /\ ~ In newline (List.map byte_of_N (dumps msg)).
Proof.
  split; [unfold wire; by rewrite map_app|].
  intros Hin. apply in_map_iff in Hin as (c & Hc & Hin).
  pose proof (dumps_printable msg) as Hp. rewrite Forall_forall in Hp.
  apply list_elem_of_In in Hin. specialize (Hp _ Hin). unfold printable in Hp.
  assert (Byte.to_N (byte_of_N c) = c) as Hto by (apply byte_of_N_to_N; lia).
  rewrite Hc in Hto. simpl in Hto. lia.
Qed.




(** *** Reading a line *)

Lemma split_line_no_newline (bs : list byte) :
  ~ In newline bs -> split_line bs = (bs, []).
Proof.
  induction bs as [|b r IH]; simpl; [done|]. intros Hn.
  destruct (Byte.eqb b newline) eqn:Hb.
  - apply Byte.byte_dec_bl in Hb. tauto.
  - rewrite IH; [done|tauto].
Qed.

Lemma utf8_decode_snoc_newline_le (n : nat) : forall bs : list byte,
  (length bs <= n)%nat ->
  utf8_decode (bs ++ [newline]) = try! t := utf8_decode bs in Ok (t ++ [10]).
Proof.
  induction n as [|n IH]; intros bs Hlen.
  - destruct bs; [reflexivity|simpl in Hlen; lia].
  - destruct bs as [|b0 r0]; [reflexivity|].
    cbn [app utf8_decode]. simpl in Hlen.
    destruct (Byte.to_N b0 <? 128).
    { rewrite IH by lia. by destruct (utf8_decode r0). }
    destruct (Byte.to_N b0 <? 194); [done|].
    destruct (Byte.to_N b0 <? 224).
    { destruct r0 as [|b1 r1]; [reflexivity|]. cbn [app]. simpl in Hlen.
      destruct (in_range 128 191 (Byte.to_N b1)); [|done].
      rewrite IH by lia. by destruct (utf8_decode r1). }
    destruct (Byte.to_N b0 <? 240).
    { destruct r0 as [|b1 [|b2 r2]]; [reflexivity| |].
      - cbn [app]. replace (in_range 128 191 (Byte.to_N newline)) with false by reflexivity.
        by rewrite andb_false_r.
      - cbn [app]. simpl in Hlen.
        match goal with |- context [if ?c then _ else _] => destruct c end; [|done].
        rewrite IH by lia. by destruct (utf8_decode r2). }
    destruct (Byte.to_N b0 <? 245); [|done].
    destruct r0 as [|b1 [|b2 [|b3 r3]]]; [reflexivity|reflexivity| |].
    + cbn [app]. replace (in_range 128 191 (Byte.to_N newline)) with false by reflexivity.
      by rewrite andb_false_r.
    + cbn [app]. simpl in Hlen.
      match goal with |- context [if ?c then _ else _] => destruct c end; [|done].
      rewrite IH by lia. by destruct (utf8_decode r3).
Qed.

Lemma utf8_decode_snoc_newline (bs : list byte) :
  utf8_decode (bs ++ [newline]) = try! t := utf8_decode bs in Ok (t ++ [10]).
Proof. by apply (utf8_decode_snoc_newline_le (length bs)). Qed.

Lemma to_N_newline (b : byte) : Byte.to_N b = 10 -> b = newline.
Proof.
  intros Hb. pose proof (Byte.of_to_N b) as Hof. rewrite Hb in Hof.
  by injection Hof.
Qed.

Lemma utf8_decode_newline_le (n : nat) : forall (bs : list byte) (res : text),
  (length bs <= n)%nat -> utf8_decode bs = Ok res -> In 10 res -> In newline bs.
Proof.
  induction n as [|n IH]; intros bs res Hlen.
  - destruct bs; [intros [= <-] []|simpl in Hlen; lia].
  - destruct bs as [|b0 r0]; [intros [= <-] []|].
    cbn [utf8_decode]. simpl in Hlen.
    destruct (N.ltb_spec (Byte.to_N b0) 128) as [H128|H128].
    { destruct (utf8_decode r0) as [t| |] eqn:Ht; try discriminate.
      intros [= <-] [H10|Hin]; [left; by apply to_N_newline|].
      right. apply (IH r0 t); [lia|done..]. }
    destruct (N.ltb_spec (Byte.to_N b0) 194) as [H194|H194]; [done|].
    destruct (N.ltb_spec (Byte.to_N b0) 224) as [H224|H224].
    { destruct r0 as [|b1 r1]; [done|]. simpl in Hlen.
      destruct (in_range 128 191 (Byte.to_N b1)); [|done].
      destruct (utf8_decode r1) as [t| |] eqn:Ht; try discriminate.
      intros [= <-] [H10|Hin]; [lia|].
      right; right. apply (IH r1 t); [lia|done..]. }
    destruct (N.ltb_spec (Byte.to_N b0) 240) as [H240|H240].
    { destruct r0 as [|b1 [|b2 r2]]; [done..|]. simpl in Hlen.
      destruct (in_range _ _ (Byte.to_N b1)) eqn:Hr1; [|done].
      destruct (in_range 128 191 (Byte.to_N b2)); [|done]. cbn [andb].
      destruct (utf8_decode r2) as [t| |] eqn:Ht; try discriminate.
      intros [= <-] [H10|Hin].
      - exfalso. unfold in_range in Hr1. apply andb_true_iff in Hr1 as [Hlo _].
        apply N.leb_le in Hlo.
        destruct (N.eqb_spec (Byte.to_N b0) 224) as [H0|H0]; [rewrite H0 in H10|]; lia.
      - right; right; right. apply (IH r2 t); [lia|done..]. }
    destruct (N.ltb_spec (Byte.to_N b0) 245) as [H245|H245]; [|done].
    destruct r0 as [|b1 [|b2 [|b3 r3]]]; [done..|]. simpl in Hlen.
    destruct (in_range _ _ (Byte.to_N b1)) eqn:Hr1; [|done].
    destruct (in_range 128 191 (Byte.to_N b2)); [|done].
    destruct (in_range 128 191 (Byte.to_N b3)); [|done]. cbn [andb].
    destruct (utf8_decode r3) as [t| |] eqn:Ht; try discriminate.
    intros [= <-] [H10|Hin].
    + exfalso. unfold in_range in Hr1. apply andb_true_iff in Hr1 as [Hlo _].
      apply N.leb_le in Hlo.
      destruct (N.eqb_spec (Byte.to_N b0) 240) as [H0|H0]; [rewrite H0 in H10|]; lia.
    + right; right; right; right. apply (IH r3 t); [lia|done..].
Qed.

Lemma ends_with_newline_In (res : text) : ends_with_newline res = true -> In 10 res.
Proof.
  unfold ends_with_newline. destruct (last res) as [c|] eqn:Hl; [|done].
  intros Hc. apply N.eqb_eq in Hc. subst c.
  apply last_Some in Hl as [l' ->]. apply in_or_app. right. by left.
Qed.

Lemma ends_with_newline_snoc (t : text) : ends_with_newline (t ++ [10]) = true.
Proof. unfold ends_with_newline. by rewrite last_snoc. Qed.


Lemma before_newline_none (bs : list byte) :
  ~ In newline bs -> before_newline bs = N.of_nat (length bs).
Proof.
  induction bs as [|b r IH]; [done|]. intros Hn. cbn [before_newline length].
  destruct (Byte.eqb b newline) eqn:Hb.
  - apply Byte.byte_dec_bl in Hb. exfalso. apply Hn. by left.
  - rewrite IH by (intros Hin; apply Hn; by right). lia.
Qed.

Lemma before_newline_body (body rest : list byte) :
  ~ In newline body ->
  before_newline (body ++ newline :: rest) = N.of_nat (length body).
Proof.
  induction body as [|b body IH]; [done|]. intros Hn. cbn [app before_newline length].
  destruct (Byte.eqb b newline) eqn:Hb.
  - apply Byte.byte_dec_bl in Hb. exfalso. apply Hn. by left.
  - rewrite IH by (intros Hin; apply Hn; by right). lia.
Qed.

Lemma split_line_body (body rest : list byte) :
  ~ In newline body ->
  split_line (body ++ newline :: rest) = (body ++ [newline], rest).
Proof.
  induction body as [|b body IH]; [done|]. intros Hn. cbn [app split_line].
  destruct (Byte.eqb b newline) eqn:Hb.
  - apply Byte.byte_dec_bl in Hb. exfalso. apply Hn. by left.
  - by rewrite IH by (intros Hin; apply Hn; by right).
Qed.


Lemma read_message_at_eof (self : HijackClient) :
  ~ In newline (incoming (_reader self)) ->
  N.of_nat (length (incoming (_reader self))) <= limit (_reader self) ->
  (forall res, utf8_decode (incoming (_reader self)) = Ok res ->
     read_message self = (Ok JNull, set_reader (consume [] (_reader self)) self))
  /\ (forall e, utf8_decode (incoming (_reader self)) = Raise e ->
     read_message self = (Raise e, set_reader (consume [] (_reader self)) self)).
Proof.
  intros Hnl Hlimit. unfold read_message, sbind, _read_message_raw, readline.
  rewrite (split_line_no_newline _ Hnl), (before_newline_none _ Hnl).
  rewrite (proj2 (N.ltb_ge _ _) Hlimit). cbn [obind]. split.
  - intros res Hres. rewrite Hres.
    destruct (ends_with_newline res) eqn:Hend; [|done].
    exfalso. apply Hnl.
    apply (utf8_decode_newline_le (length (incoming (_reader self))) _ res);
      [lia|done|].
    by apply ends_with_newline_In.
  - intros e He. by rewrite He.
Qed.

Lemma read_message_full_line (self : HijackClient) (body rest : list byte) :
  incoming (_reader self) = body ++ newline :: rest ->
  ~ In newline body ->
  N.of_nat (length body) <= limit (_reader self) ->
  (forall e, utf8_decode body = Raise e ->
     read_message self = (Raise e, set_reader (consume rest (_reader self)) self))
  /\ (forall t, utf8_decode body = Ok t ->
     read_message self
     = (loads (t ++ [10]), set_reader (consume rest (_reader self)) self)).
Proof.
  intros Hinput Hbody Hlimit.
  unfold read_message, sbind, _read_message_raw, readline.
  rewrite Hinput, (split_line_body _ _ Hbody), (before_newline_body _ _ Hbody).
  rewrite (proj2 (N.ltb_ge _ _) Hlimit). cbn [obind].
  rewrite utf8_decode_snoc_newline. split.
  - intros e He. by rewrite He.
  - intros t Ht. rewrite Ht. cbn [obind]. rewrite ends_with_newline_snoc.
    rewrite length_app. cbn [length negb orb].
    replace (length t + 1 =? 0)%nat with false
      by (symmetry; apply Nat.eqb_neq; lia).
    reflexivity.
Qed.




(** *** The server: joining *)

Lemma setdefault_lookup (key : pykey) (d : HijackLobby) (t : gmap pykey HijackLobby) :
  setdefault key d t !! key = Some (default d (t !! key)).
Proof.
  unfold setdefault. destruct (t !! key) eqn:Ht; simpl; [done|].
  by rewrite lookup_insert_eq.
Qed.

Lemma insert_setdefault (key : pykey) (lb d : HijackLobby) (t : gmap pykey HijackLobby) :
  <[key := lb]> (setdefault key d t) = <[key := lb]> t.
Proof.
  unfold setdefault. destruct (t !! key); [done|]. by rewrite insert_insert_eq.
Qed.

Lemma set_building_lobbies_same (s : HijackServer) :
  set_building_lobbies (_building_lobbies s) s = s.
Proof. by destruct s. Qed.

(** What [enroll] does once the identity has been read: [remote] is the
    connection, [key] the key of its lobby. *)
Lemma enroll_joined reader writer (self : HijackServer) remote lobby_name key :
  finish_connect_server reader writer = Ok remote ->
  lobby remote = Ok lobby_name ->
  py_hash lobby_name = Ok key ->
  let lb := default (HijackLobby_init lobby_name) (_building_lobbies self !! key) in
  enroll reader writer self =
  match add_remote remote lb with
  | (Ok _, lb') =>
      if check_lobby_complete (_handler self) lb' then
        (Ok (Some lb'),
         log [Unlisted key]
           (set_building_lobbies (delete key (_building_lobbies self)) self))
      else
        (Ok None, set_building_lobbies (<[key := lb']> (_building_lobbies self)) self)
  | (Raise e, _) =>
      (Raise e, set_building_lobbies (<[key := lb]> (_building_lobbies self)) self)
  | (Beyond, _) =>
      (Beyond, set_building_lobbies (<[key := lb]> (_building_lobbies self)) self)
  end.
Proof.
  intros Hfin Hlobby Hkey lb. unfold enroll. rewrite Hfin; cbn [obind].
  rewrite Hlobby; cbn [obind]. rewrite Hkey; cbn [obind].
  rewrite setdefault_lookup. unfold default at 1. cbn [from_option id].
  fold lb. clearbody lb.
  pose proof (add_remote_outcome remote lb) as Hadd.
  destruct (try! n := name remote in py_hash n) as [k|e|].
  - destruct (dict_get (_members lb) k); rewrite Hadd.
    + by rewrite insert_setdefault.
    + rewrite insert_setdefault, delete_insert_eq.
      by destruct (check_lobby_complete _ _).
  - rewrite Hadd. by rewrite insert_setdefault.
  - rewrite Hadd. by rewrite insert_setdefault.
Qed.

Lemma finish_connect_server_eq reader writer :
  finish_connect_server reader writer =
  try! v := fst (read_message (unconnected reader writer)) in
  Ok (set_metadata v (snd (read_message (unconnected reader writer)))).
Proof.
  unfold finish_connect_server, HijackClient_init. cbn [Z.eqb Pos.eqb negb obind].
  fold (unconnected reader writer).
  by destruct (read_message (unconnected reader writer)) as [[v|e|] c].
Qed.

Lemma metadata_item_set_metadata v c k :
  metadata_item (set_metadata v c) k = py_getitem v k.
Proof. reflexivity. Qed.




Lemma handle_client_enroll_raises reader writer (self self' : HijackServer) e :
  enroll reader writer self = (Raise e, self') ->
  _handle_client reader writer self = (Raise e, self').
Proof. intros He. unfold _handle_client. by rewrite He. Qed.




(** *** The server: closing *)

Lemma close_outcome (c : HijackClient) :
  close c
  = (match close_error (_writer c) with
     | None => Ok tt
     | Some e => Raise e
     end, snd (close c)).
Proof. unfold close. by destruct (close_error (_writer c)). Qed.

Lemma close_all_clean (ms : list (pykey * HijackClient)) :
  forallb closes_cleanly ms = true ->
  close_all ms
  = (Ok tt, List.map closed_member ms,
     List.map (fun m => ClosedMember (fst m) (Ok tt)) ms).
Proof.
  induction ms as [|[k c] ms IH]; cbn [close_all forallb List.map]; [done|].
  intros Hall. apply andb_true_iff in Hall as [Hc Hms].
  unfold closes_cleanly in Hc; cbn [snd] in Hc. rewrite close_outcome.
  destruct (close_error (_writer c)); [discriminate|]. by rewrite (IH Hms).
Qed.

Lemma close_all_stops (pre post : list (pykey * HijackClient)) k c e :
  forallb closes_cleanly pre = true ->
  close_error (_writer c) = Some e ->
  close_all (pre ++ (k, c) :: post)
  = (Raise e, List.map closed_member pre ++ closed_member (k, c) :: post,
     List.map (fun m => ClosedMember (fst m) (Ok tt)) pre ++ [ClosedMember k (Raise e)]).
Proof.
  intros Hpre He.
  induction pre as [|[k' c'] pre IH]; cbn [close_all forallb List.map app].
  - rewrite close_outcome, He. reflexivity.
  - cbn [forallb] in Hpre. apply andb_true_iff in Hpre as [Hc Hpre].
    unfold closes_cleanly in Hc; cbn [snd] in Hc. rewrite close_outcome.
    destruct (close_error (_writer c')); [discriminate|]. by rewrite (IH Hpre).
Qed.

Lemma closed_member_is_closed (m : pykey * HijackClient) :
  is_closed (closed_member m) = true.
Proof.
  destruct m as [k c]. unfold is_closed, closed_member, close. simpl.
  by destruct (close_error (_writer c)).
Qed.

(** C1, as the code has it.  Once the roster is out and the runner has
    returned normally, the members are closed one after the other in the
    order of the lobby: all of them when no close fails; when the close of
    a member fails, the failure is raised at once and the members after it
    are left as the runner left them. *)
Theorem close_after_normal_run
    (lb lb2 : HijackLobby) (self : HijackServer)
    (jobs : list (pykey * HijackClient * list Jsonable))
    (ms1 : list (pykey * HijackClient)) (evs1 : list event) :
  rosters lb = Ok jobs ->
  gather_sends jobs = (Ok tt, ms1, evs1) ->
  run_lobby (_handler self) (set_members ms1 lb) = (Ok tt, lb2) ->
  let before := log (evs1 ++ [RanLobby (set_members ms1 lb) (Ok tt)]) self in
  (forallb closes_cleanly (_members lb2) = true ->
     start_lobby (lb, self)
     = (Ok tt,
        (set_members (List.map closed_member (_members lb2)) lb2,
         log (List.map (fun m => ClosedMember (fst m) (Ok tt)) (_members lb2)) before))
     /\ forallb is_closed (List.map closed_member (_members lb2)) = true)
  /\
  (forall pre k c post e,
     _members lb2 = pre ++ (k, c) :: post ->
     forallb closes_cleanly pre = true ->
     close_error (_writer c) = Some e ->
     start_lobby (lb, self)
     = (Raise e,
        (set_members (List.map closed_member pre ++ closed_member (k, c) :: post) lb2,
         log (List.map (fun m => ClosedMember (fst m) (Ok tt)) pre
              ++ [ClosedMember k (Raise e)]) before))).
Proof.
  intros Hjobs Hsends Hrun before.
  assert (Hlog : forall evs, log evs before
            = log evs (log [RanLobby (set_members ms1 lb) (Ok tt)] (log evs1 self))).
  { intros evs. unfold before, log. simpl. by rewrite <- !app_assoc. }
  split.
  - intros Hclean. split.
    + unfold start_lobby. rewrite Hjobs, Hsends, Hrun.
      rewrite (close_all_clean _ Hclean). by rewrite Hlog.
    + apply forallb_forall. intros m Hin. apply in_map_iff in Hin as (m0 & <- & _).
      apply closed_member_is_closed.
  - intros pre k c post e Hms Hpre He.
    unfold start_lobby. rewrite Hjobs, Hsends, Hrun, Hms.
    rewrite (close_all_stops pre post k c e Hpre He). by rewrite Hlog.
Qed.

Lemma raising_runner_closes_nothing
    (lb lb2 : HijackLobby) (self : HijackServer)
    (jobs : list (pykey * HijackClient * list Jsonable))
    (ms1 : list (pykey * HijackClient)) (evs1 : list event) (e : exn) :
  rosters lb = Ok jobs ->
  gather_sends jobs = (Ok tt, ms1, evs1) ->
  run_lobby (_handler self) (set_members ms1 lb) = (Raise e, lb2) ->
  start_lobby (lb, self)
  = (Raise e, (lb2, log [RanLobby (set_members ms1 lb) (Raise e)] (log evs1 self))).
Proof.
  intros Hjobs Hsends Hrun. unfold start_lobby. by rewrite Hjobs, Hsends, Hrun.
Qed.

(** *** The server: the roster *)

Lemma Zeqb_KNum (a b : Z) : (a =? b)%Z = bool_decide (KNum a = KNum b).
Proof.
  destruct (Z.eqb_spec a b) as [->|Hne]; symmetry.
  - by apply bool_decide_eq_true_2.
  - apply bool_decide_eq_false_2. congruence.
Qed.

Lemma py_eqb_hash (a b : Jsonable) (ka kb : pykey) :
  py_hash a = Ok ka -> py_hash b = Ok kb -> py_eqb a b = bool_decide (ka = kb).
Proof.
  destruct a as [|x|x|x| |], b as [|y|y|y| |]; simpl; intros Ha Hb;
    try discriminate; injection Ha as <-; injection Hb as <-;
    try reflexivity; try apply Zeqb_KNum.
  - rewrite <- Zeqb_KNum. by destruct x, y.
  - destruct (decide (x = y)) as [->|Hne].
    + rewrite !bool_decide_eq_true_2; done.
    + rewrite !bool_decide_eq_false_2; congruence.
Qed.

Lemma stored_under_own_name_spec (m : pykey * HijackClient) :
  stored_under_own_name m = true ->
  exists n, name (snd m) = Ok n /\ py_hash n = Ok (fst m).
Proof.
  unfold stored_under_own_name.
  destruct (name (snd m)) as [n| |]; simpl; try discriminate.
  destruct (py_hash n) as [k| |] eqn:Hh; try discriminate.
  intros Hk. apply bool_decide_eq_true in Hk. subst. eauto.
Qed.

Lemma names_of_others (ms : list (pykey * HijackClient)) (n : Jsonable) (k : pykey) :
  forallb stored_under_own_name ms = true ->
  py_hash n = Ok k ->
  (try! os := ofilter (fun i => try! n' := name i in Ok (negb (py_eqb n' n)))
                (dict_values ms) in
   omap name os) = Ok (other_names ms k).
Proof.
  intros Hall Hn. unfold dict_values, other_names.
  induction ms as [|[k' c'] ms IH]; [done|].
  cbn [forallb] in Hall. apply andb_true_iff in Hall as [Hm Hms].
  destruct (stored_under_own_name_spec _ Hm) as (n' & Hn' & Hk'). simpl in Hn', Hk'.
  specialize (IH Hms).
  cbn [List.map ofilter flat_map snd fst].
  rewrite Hn'. cbn [obind]. rewrite (py_eqb_hash n' n k' k Hk' Hn).
  destruct (ofilter _ (List.map snd ms)) as [rest| |]; try discriminate.
  cbn [obind] in *. destruct (decide (k' = k)) as [->|Hne].
  - rewrite bool_decide_eq_true_2 by done. simpl. exact IH.
  - rewrite bool_decide_eq_false_2 by done. simpl. rewrite Hn'. cbn [obind].
    rewrite IH. reflexivity.
Qed.

Lemma rosters_ok (lb : HijackLobby) :
  lobby_ok lb = true ->
  rosters lb = Ok (roster_jobs (_members lb)).
Proof.
  intros Hok. unfold rosters, roster_jobs.
  assert (Hsub : forall l, forallb stored_under_own_name l = true ->
    omap (fun m : pykey * HijackClient =>
            try! os := get_other_members lb (ByClient (snd m)) in
            try! names := omap name os in
            Ok (fst m, snd m, names)) l
    = Ok (List.map (fun m => (fst m, snd m, other_names (_members lb) (fst m))) l)).
  { induction l as [|m l IH]; [done|]. cbn [forallb]. intros Hall.
    apply andb_true_iff in Hall as [Hm Hl].
    destruct (stored_under_own_name_spec _ Hm) as (n & Hn & Hk).
    cbn [omap List.map]. rewrite (IH Hl).
    unfold get_other_members. rewrite Hn. cbn [obind].
    pose proof (names_of_others (_members lb) n (fst m) Hok Hk) as Hos.
    unfold members.
    destruct (ofilter _ (dict_values (_members lb))) as [os| |]; try discriminate.
    cbn [obind] in *. by rewrite Hos. }
  by apply Hsub.
Qed.

Lemma send_starting_metadata_fresh (os : list Jsonable) (c : HijackClient) :
  is_None (_starting_metadata c) = true ->
  send_starting_metadata os c = (Ok tt, started os c).
Proof.
  intros Hc. unfold send_starting_metadata. rewrite Hc. cbn [negb].
  by rewrite send_message_writes.
Qed.

Lemma gather_sends_ok (f : pykey * HijackClient -> list Jsonable)
    (l : list (pykey * HijackClient)) :
  forallb not_started l = true ->
  gather_sends (List.map (fun m => (fst m, snd m, f m)) l)
  = (Ok tt, List.map (fun m => (fst m, started (f m) (snd m))) l,
     List.map (fun m => SentStarting (fst m) (f m) (Ok tt)) l).
Proof.
  induction l as [|m l IH]; [done|]. cbn [forallb]. intros Hall.
  apply andb_true_iff in Hall as [Hm Hl]. cbn [List.map gather_sends].
  rewrite send_starting_metadata_fresh by exact Hm. by rewrite (IH Hl).
Qed.

(** What [start_lobby] does to a lobby as the table holds them. *)
Lemma start_lobby_ok (lb : HijackLobby) (self : HijackServer) :
  building_ok lb ->
  let ready := set_members (announced (_members lb)) lb in
  let sends := roster_events (_members lb) in
  start_lobby (lb, self)
  = match run_lobby (_handler self) ready with
    | (Ok _, lb2) =>
        let '(r3, ms3, evs3) := close_all (_members lb2) in
        (r3, (set_members ms3 lb2,
              log evs3 (log [RanLobby ready (Ok tt)] (log sends self))))
    | (r2, lb2) => (r2, (lb2, log [RanLobby ready r2] (log sends self)))
    end.
Proof.
  intros (Hok & _ & Hfresh) ready sends. unfold start_lobby.
  rewrite (rosters_ok lb Hok). unfold roster_jobs.
  rewrite (gather_sends_ok (fun m => other_names (_members lb) (fst m)) _ Hfresh).
  fold (announced (_members lb)). fold (roster_events (_members lb)).
  fold ready. fold sends.
  destruct (run_lobby (_handler self) ready) as [[[]| |] lb2]; reflexivity.
Qed.

(** *** The server: what stays true of the table *)

Lemma read_message_state (c : HijackClient) :
  exists r, snd (read_message c) = set_reader r c.
Proof.
  unfold read_message, sbind, _read_message_raw.
  destruct (readline (_reader c)) as [line r]. exists r.
  destruct (try! data := line in utf8_decode data) as [res| |]; try reflexivity.
  destruct (negb (ends_with_newline res) || (length res =? 0)%nat); reflexivity.
Qed.

Lemma finish_connect_server_fresh reader writer remote :
  finish_connect_server reader writer = Ok remote ->
  is_None (_starting_metadata remote) = true.
Proof.
  rewrite finish_connect_server_eq.
  destruct (read_message_state (unconnected reader writer)) as [r Hr].
  rewrite Hr. destruct (fst (read_message (unconnected reader writer))); try discriminate.
  by intros [= <-].
Qed.

Lemma building_ok_init (lobby_id : Jsonable) : building_ok (HijackLobby_init lobby_id).
Proof. repeat split. simpl. constructor. Qed.

Lemma add_remote_building_ok (remote : HijackClient) (lb : HijackLobby) :
  building_ok lb ->
  is_None (_starting_metadata remote) = true ->
  building_ok (snd (add_remote remote lb)).
Proof.
  intros (Hok & Hnd & Hfresh) Hremote.
  pose proof (add_remote_lobby_ok remote lb Hok) as Hok'.
  split; [exact Hok'|]. clear Hok'.
  pose proof (add_remote_outcome remote lb) as Hadd.
  destruct (try! n := name remote in py_hash n) as [k|e|];
    [|by rewrite Hadd..].
  destruct (dict_get (_members lb) k) eqn:Hget; rewrite Hadd; [done|].
  cbn [snd _members set_members]. split.
  - unfold dict_keys in *. rewrite map_app. cbn [List.map fst].
    apply NoDup_app. split; [done|]. split; [|apply NoDup_singleton].
    intros x Hx Hx'. apply list_elem_of_singleton in Hx'. subst x.
    apply dict_get_None_keys in Hget. apply Hget. by apply list_elem_of_In.
  - rewrite forallb_app, Hfresh. cbn [forallb]. unfold not_started. cbn [snd].
    by rewrite Hremote.
Qed.

Lemma add_remote_failure (remote : HijackClient) (lb lb' : HijackLobby)
    (r : outcome unit) :
  add_remote remote lb = (r, lb') -> (forall x, r <> Ok x) -> lb' = lb.
Proof.
  intros Hadd Hr. pose proof (add_remote_outcome remote lb) as Hout.
  destruct (try! n := name remote in py_hash n).
  - destruct (dict_get _ _); rewrite Hout in Hadd; injection Hadd as <- <-;
      [done|by destruct (Hr tt)].
  - rewrite Hout in Hadd. by injection Hadd as <- <-.
  - rewrite Hout in Hadd. by injection Hadd as <- <-.
Qed.

Lemma enroll_enrolled reader writer (self : HijackServer) :
  enrolled reader writer self (enroll reader writer self).
Proof.
  destruct (finish_connect_server reader writer) as [remote|e|] eqn:Hfin.
  2,3: unfold enroll; rewrite Hfin; by constructor.
  destruct (lobby remote) as [lobby_name|e|] eqn:Hl.
  2,3: unfold enroll; rewrite Hfin; cbn [obind]; rewrite Hl; by constructor.
  destruct (py_hash lobby_name) as [key|e|] eqn:Hh.
  2,3: unfold enroll; rewrite Hfin; cbn [obind]; rewrite Hl; cbn [obind];
       rewrite Hh; by constructor.
  rewrite (enroll_joined reader writer self remote lobby_name key Hfin Hl Hh).
  cbv zeta.
  destruct (add_remote remote _) as [r lb'] eqn:Hadd.
  pose proof (enrolled_joined reader writer self remote lobby_name key r lb'
                Hfin Hl Hh Hadd) as Hen.
  pose proof (add_remote_outcome remote
                (default (HijackLobby_init lobby_name) (_building_lobbies self !! key)))
    as Hout.
  destruct r as [[]|e|]; try exact Hen.
  - by rewrite (add_remote_failure _ _ _ _ Hadd) in Hen.
  - by rewrite (add_remote_failure _ _ _ _ Hadd) in Hen.
Qed.

Lemma server_ok_init handler port : server_ok (HijackServer_init handler port).
Proof. intros k l Hk. simpl in Hk. by rewrite lookup_empty in Hk. Qed.

Lemma server_ok_insert (self : HijackServer) key lb :
  server_ok self -> building_ok lb ->
  server_ok (set_building_lobbies (<[key := lb]> (_building_lobbies self)) self).
Proof.
  intros Hs Hlb k l. cbn [_building_lobbies set_building_lobbies].
  destruct (decide (key = k)) as [<-|Hne].
  - rewrite lookup_insert_eq. by intros [= <-].
  - rewrite lookup_insert_ne by done. apply Hs.
Qed.

Lemma server_ok_delete (self : HijackServer) key evs :
  server_ok self ->
  server_ok (log evs (set_building_lobbies (delete key (_building_lobbies self)) self)).
Proof.
  intros Hs k l. cbn [_building_lobbies set_building_lobbies log].
  destruct (decide (key = k)) as [<-|Hne].
  - by rewrite lookup_delete_eq.
  - rewrite lookup_delete_ne by done. apply Hs.
Qed.

Lemma server_ok_default (self : HijackServer) key lobby_name :
  server_ok self ->
  building_ok (default (HijackLobby_init lobby_name) (_building_lobbies self !! key)).
Proof.
  intros Hs. destruct (_building_lobbies self !! key) eqn:Hk; simpl.
  - by apply (Hs key).
  - apply building_ok_init.
Qed.

Lemma server_ok_enroll reader writer (self : HijackServer) :
  server_ok self ->
  server_ok (snd (enroll reader writer self))
  /\ forall lb, fst (enroll reader writer self) = Ok (Some lb) -> building_ok lb.
Proof.
  intros Hs. destruct (enroll_enrolled reader writer self)
    as [r Hr|remote lobby_name key r lb' Hfin Hl Hh Hadd].
  - split; [done|]. intros lb Hlb. by destruct (Hr (Some lb)).
  - assert (Hlb' : building_ok lb').
    { replace lb' with (snd (add_remote remote
        (default (HijackLobby_init lobby_name) (_building_lobbies self !! key))))
        by (by rewrite Hadd).
      apply add_remote_building_ok; [by apply server_ok_default|].
      by apply (finish_connect_server_fresh reader writer). }
    destruct r as [[]|e|].
    + destruct (check_lobby_complete (_handler self) lb'); cbn [fst snd].
      * split; [by apply server_ok_delete|]. by intros lb [= <-].
      * split; [by apply server_ok_insert|]. discriminate.
    + split; [by apply server_ok_insert|]. discriminate.
    + split; [by apply server_ok_insert|]. discriminate.
Qed.

(** [start_lobby] only adds to the journal. *)
Lemma start_lobby_logs (lb : HijackLobby) (self : HijackServer) :
  exists evs, snd (snd (start_lobby (lb, self))) = log evs self.
Proof.
  assert (Hnil : self = log [] self).
  { unfold log. rewrite app_nil_r. by destruct self. }
  assert (Hlog : forall a b s, log a (log b s) = log (b ++ a) s).
  { intros a b s. unfold log. simpl. by rewrite app_assoc. }
  unfold start_lobby.
  destruct (rosters lb) as [jobs| |]; [|by exists []..].
  destruct (gather_sends jobs) as [[r ms1] evs1].
  destruct r as [[]| |]; [|by eexists..].
  destruct (run_lobby _ _) as [r2 lb2].
  destruct r2 as [[]| |]; [|eexists; cbn [snd]; by rewrite Hlog..].
  destruct (close_all _) as [[r3 ms3] evs3].
  eexists. cbn [snd]. by rewrite !Hlog.
Qed.

Lemma handle_client_table reader writer (self : HijackServer) :
  _building_lobbies (snd (_handle_client reader writer self))
  = _building_lobbies (snd (enroll reader writer self)).
Proof.
  unfold _handle_client.
  destruct (enroll reader writer self) as [[[lb|]| |] self1]; try reflexivity.
  destruct (start_lobby_logs lb self1) as [evs Hevs].
  destruct (start_lobby (lb, self1)) as [r [lb2 self2]].
  cbn [snd] in *. by rewrite Hevs.
Qed.

Lemma server_ok_handle_client reader writer (self : HijackServer) :
  server_ok self -> server_ok (snd (_handle_client reader writer self)).
Proof.
  intros Hs k l. rewrite handle_client_table.
  by apply (server_ok_enroll reader writer self Hs).
Qed.

(** C2.  When the completion check answers true, [enroll] has taken the
    lobby out of the table, and journalled that, before [start_lobby]
    sends the first roster; the key stays out of the table through the rest
    of the call.  A connection that names the same lobby while the key is
    out of the table becomes the only member of a new lobby. *)
Theorem lobby_unlisted_before_roster
    (reader : StreamReader) (writer : StreamWriter) (self self1 : HijackServer)
    (lb : HijackLobby) :
  enroll reader writer self = (Ok (Some lb), self1) ->
  exists key remote lobby_name,
    lobby remote = Ok lobby_name
    /\ py_hash lobby_name = Ok key
    /\ add_remote remote
         (default (HijackLobby_init lobby_name) (_building_lobbies self !! key))
       = (Ok tt, lb)
    /\ check_lobby_complete (_handler self) lb = true
    /\ journal self1 = journal self ++ [Unlisted key]
    /\ _building_lobbies self1 !! key = None
    /\ (exists evs,
          snd (snd (start_lobby (lb, self1))) = log evs self1
          /\ journal (snd (_handle_client reader writer self))
             = journal self ++ Unlisted key :: evs)
    /\ _building_lobbies (snd (_handle_client reader writer self)) !! key = None
    /\ (forall reader2 writer2 (self2 : HijackServer) remote2 lobby_name2 n2 k2,
          _building_lobbies self2 !! key = None ->
          finish_connect_server reader2 writer2 = Ok remote2 ->
          lobby remote2 = Ok lobby_name2 ->
          py_hash lobby_name2 = Ok key ->
          name remote2 = Ok n2 ->
          py_hash n2 = Ok k2 ->
          let fresh := {| lobby_id := lobby_name2; _members := [(k2, remote2)] |} in
          enroll reader2 writer2 self2
          = if check_lobby_complete (_handler self2) fresh then
              (Ok (Some fresh),
               log [Unlisted key]
                 (set_building_lobbies (delete key (_building_lobbies self2)) self2))
            else
              (Ok None,
               set_building_lobbies (<[key := fresh]> (_building_lobbies self2)) self2)).
Proof.
  intros Henroll.
  pose proof (enroll_enrolled reader writer self) as Hen. rewrite Henroll in Hen.
  inversion Hen as [r Hr|remote lobby_name key r lb' Hfin Hl Hh Hadd Hres]; subst.
  { by destruct (Hr (Some lb)). }
  destruct r as [[]|e|]; [|discriminate..].
  destruct (check_lobby_complete (_handler self) lb') eqn:Hcheck; [|discriminate].
  injection Hres as -> <-.
  exists key, remote, lobby_name.
  split; [done|]. split; [done|]. split; [done|]. split; [done|].
  split; [reflexivity|].
  split; [cbn [_building_lobbies set_building_lobbies log]; apply lookup_delete_eq|].
  split; [|split].
  - destruct (start_lobby_logs lb
      (log [Unlisted key]
         (set_building_lobbies (delete key (_building_lobbies self)) self)))
      as [evs Hevs].
    exists evs. split; [exact Hevs|].
    unfold _handle_client. rewrite Henroll.
    destruct (start_lobby _) as [r [lb2 self2]]. cbn [snd] in *. rewrite Hevs.
    cbn [journal log set_building_lobbies]. by rewrite <- app_assoc.
  - rewrite handle_client_table, Henroll.
    cbn [snd _building_lobbies set_building_lobbies log]. apply lookup_delete_eq.
  - intros reader2 writer2 self2 remote2 lobby_name2 n2 k2
      Hnone Hfin2 Hl2 Hh2 Hn2 Hk2 fresh.
    rewrite (enroll_joined reader2 writer2 self2 remote2 lobby_name2 key Hfin2 Hl2 Hh2).
    cbv zeta. rewrite Hnone. cbn [default from_option id].
    pose proof (add_remote_outcome remote2 (HijackLobby_init lobby_name2)) as Hout.
    rewrite Hn2 in Hout. cbn [obind] in Hout. rewrite Hk2 in Hout. cbn [HijackLobby_init _members dict_get] in Hout.
    rewrite Hout. reflexivity.
Qed.



Lemma enroll_same_handler reader writer (self : HijackServer) :
  _handler (snd (enroll reader writer self)) = _handler self.
Proof.
  destruct (enroll_enrolled reader writer self) as [|? ? ? r]; [done|].
  destruct r as [[]| |]; [|done..]. by destruct (check_lobby_complete _ _).
Qed.


(** *** Closed instances for the server *)

Lemma close_after_normal_run_witness :
  fst (start_lobby (pair_lobby, sample_server)) = Ok tt
  /\ forallb is_closed (_members (fst (snd (start_lobby (pair_lobby, sample_server)))))
     = true
  /\ fst (start_lobby (frail_lobby, sample_server)) = Raise ConnectionResetError.
Proof.
  split; [|split].
  - destruct (close_after_normal_run pair_lobby
                (set_members (announced (_members pair_lobby)) pair_lobby) sample_server
                (roster_jobs (_members pair_lobby)) (announced (_members pair_lobby))
                (roster_events (_members pair_lobby))) as [Hclean _];
      [reflexivity..|].
    destruct Hclean as [Hrun _]; [reflexivity|]. by rewrite Hrun.
  - destruct (close_after_normal_run pair_lobby
                (set_members (announced (_members pair_lobby)) pair_lobby) sample_server
                (roster_jobs (_members pair_lobby)) (announced (_members pair_lobby))
                (roster_events (_members pair_lobby))) as [Hclean _];
      [reflexivity..|].
    destruct Hclean as [Hrun Hclosed]; [reflexivity|]. rewrite Hrun. exact Hclosed.
  - destruct (close_after_normal_run frail_lobby
                (set_members (announced (_members frail_lobby)) frail_lobby) sample_server
                (roster_jobs (_members frail_lobby)) (announced (_members frail_lobby))
                (roster_events (_members frail_lobby))) as [_ Hstop];
      [reflexivity..|].
    erewrite (Hstop [] _ _ _ ConnectionResetError); reflexivity.
Defined.

(** C1, the claim as stated fails: the runner returns normally, the close
    of the first member fails, and the second member is left open. *)
Lemma close_failure_leaves_others_open :
  fst (run_lobby sample_handler (set_members (announced (_members frail_lobby)) frail_lobby))
  = Ok tt
  /\ fst (start_lobby (frail_lobby, sample_server)) = Raise ConnectionResetError
  /\ List.map is_closed (_members (fst (snd (start_lobby (frail_lobby, sample_server)))))
     = [true; false]
  /\ exists ready,
       journal (snd (snd (start_lobby (frail_lobby, sample_server))))
       = [SentStarting (KStr (txt "alice")) [JStr (txt "bob")] (Ok tt);
          SentStarting (KStr (txt "bob")) [JStr (txt "alice")] (Ok tt);
          RanLobby ready (Ok tt);
          ClosedMember (KStr (txt "alice")) (Raise ConnectionResetError)].
Proof.
  split; [reflexivity|]. split; [reflexivity|]. split; [reflexivity|].
  eexists. reflexivity.
Qed.

Lemma lobby_unlisted_before_roster_witness :
  exists key,
    journal (snd (enroll (sample_reader bob_line) sample_writer server_with_alice))
    = journal server_with_alice ++ [Unlisted key]
    /\ _building_lobbies
         (snd (_handle_client (sample_reader bob_line) sample_writer server_with_alice))
       !! key = None.
Proof.
  destruct (lobby_unlisted_before_roster (sample_reader bob_line) sample_writer
              server_with_alice
              (snd (enroll (sample_reader bob_line) sample_writer server_with_alice))
              pair_lobby)
    as (key & _ & _ & _ & _ & _ & _ & Hj & _ & _ & Hgone & _).
  - vm_compute. reflexivity.
  - exists key. split; [exact Hj|exact Hgone].
Defined.



(** *** Strings: [scanstring] reads back what [encode_basestring_ascii] wrote *)

Lemma hex_value_hex_digit (d : N) : d < 16 -> hex_value (hex_digit d) = Some d.
Proof.
  intros Hd. unfold hex_digit, hex_value, is_digit.
  destruct (N.ltb_spec d 10).
  - replace (48 <=? 48 + d) with true by (symmetry; apply N.leb_le; lia).
    replace (48 + d <=? 57) with true by (symmetry; apply N.leb_le; lia).
    simpl. f_equal. lia.
  - replace (87 + d <=? 57) with false by (symmetry; apply N.leb_gt; lia).
    rewrite andb_false_r.
    replace (97 <=? 87 + d) with true by (symmetry; apply N.leb_le; lia).
    replace (87 + d <=? 102) with true by (symmetry; apply N.leb_le; lia).
    simpl. f_equal. lia.
Qed.

Lemma hex_digits_value (c : N) :
  c < 65536 ->
  (((c / 4096) mod 16 * 16 + (c / 256) mod 16) * 16 + (c / 16) mod 16) * 16 + c mod 16 = c.
Proof.
  intros Hc.
  pose proof (N.div_mod c 16 ltac:(lia)) as H0.
  pose proof (N.div_mod (c / 16) 16 ltac:(lia)) as H1.
  pose proof (N.div_mod (c / 16 / 16) 16 ltac:(lia)) as H2.
  rewrite (N.Div0.div_div c 16 16) in H1, H2.
  rewrite (N.Div0.div_div c (16 * 16) 16) in H2.
  change (16 * 16) with 256 in *. change (256 * 16) with 4096 in *.
  assert (c / 4096 < 16) by (apply N.Div0.div_lt_upper_bound; lia).
  rewrite (N.mod_small (c / 4096) 16) by done.
  pose proof (N.mod_lt c 16 ltac:(lia)). pose proof (N.mod_lt (c / 16) 16 ltac:(lia)).
  pose proof (N.mod_lt (c / 256) 16 ltac:(lia)).
  lia.
Qed.

Lemma decode_u_escape (c : N) :
  c < 65536 ->
  decode_uXXXX (hex_digit ((c / 4096) mod 16)) (hex_digit ((c / 256) mod 16))
    (hex_digit ((c / 16) mod 16)) (hex_digit (c mod 16)) = Some c.
Proof.
  intros Hc. unfold decode_uXXXX.
  rewrite !hex_value_hex_digit by (apply N.mod_lt; lia).
  by rewrite hex_digits_value.
Qed.

Lemma lor_disjoint (a b k : N) : b < 2 ^ k -> N.lor (a * 2 ^ k) b = a * 2 ^ k + b.
Proof.
  intros Hb. rewrite <- N.lxor_lor, <- N.add_nocarry_lxor; try done.
  all: apply N.bits_inj; intros i; rewrite N.land_spec, N.bits_0.
  all: destruct (N.lt_ge_cases i k) as [Hi|Hi].
  all: try (rewrite N.mul_pow2_bits_low by done; reflexivity).
  all: destruct (N.eq_dec b 0) as [->|Hb0]; [by rewrite N.bits_0, andb_false_r|].
  all: rewrite (N.bits_above_log2 b i), andb_false_r; [done|].
  all: apply N.lt_le_trans with k; [|done].
  all: apply N.log2_lt_pow2; lia.
Qed.

Lemma surrogate_pair_parts (n : N) :
  n < 1048576 ->
  N.lor 55296 (N.land (N.shiftr n 10) 1023) = 55296 + n / 1024
  /\ N.lor 56320 (N.land n 1023) = 56320 + n mod 1024
  /\ N.lor (N.shiftl (n / 1024) 10) (n mod 1024) = n.
Proof.
  intros Hn.
  assert (Hdiv : n / 1024 < 1024) by (apply N.Div0.div_lt_upper_bound; lia).
  pose proof (N.mod_lt n 1024 ltac:(lia)) as Hmod.
  change 1023 with (N.ones 10). rewrite !N.land_ones, N.shiftr_div_pow2, N.shiftl_mul_pow2.
  change (2 ^ 10) with 1024. rewrite (N.mod_small (n / 1024)) by done.
  change 55296 with (54 * 2 ^ 10). change 56320 with (55 * 2 ^ 10).
  change 1024 with (2 ^ 10) in *.
  rewrite !lor_disjoint by done. repeat split.
  pose proof (N.div_mod n (2 ^ 10) ltac:(lia)). lia.
Qed.

Lemma scanstring_u_escape (c : N) (t chunks : text) :
  c < 65536 ->
  scanstring (u_escape c ++ t) chunks
  = if is_high c then
      match t with
      | b :: u :: s4 =>
          if (b =? 92) && (u =? 117) then
            match s4 with
            | g1 :: g2 :: g3 :: g4 :: s5 =>
                match decode_uXXXX g1 g2 g3 g4 with
                | None => Raise JSONDecodeError
                | Some uni2 =>
                    if is_low uni2 then
                      scanstring s5
                        (chunks ++ [65536 + N.lor (N.shiftl (c - 55296) 10) (uni2 - 56320)])
                    else scanstring t (chunks ++ [c])
                end
            | _ => Raise JSONDecodeError
            end
          else scanstring t (chunks ++ [c])
      | _ => scanstring t (chunks ++ [c])
      end
    else scanstring t (chunks ++ [c]).
Proof.
  intros Hc. unfold u_escape. cbn [app scanstring].
  change (92 =? 34) with false. change (92 =? 92) with true.
  change (117 =? 117) with true. cbv iota.
  rewrite (decode_u_escape c Hc). reflexivity.
Qed.

Lemma scanstring_escape_char (c : N) (t chunks : text) :
  c < 1114112 ->
  (is_high c = true -> joins_with_next t = false) ->
  scanstring (escape_char c ++ t) chunks = scanstring t (chunks ++ [c]).
Proof.
  intros Hc Hjoin. unfold escape_char.
  destruct (N.eqb_spec c 34) as [->|H34]; [reflexivity|].
  destruct (N.eqb_spec c 92) as [->|H92]; [reflexivity|].
  destruct (N.eqb_spec c 10) as [->|H10]; [reflexivity|].
  destruct (N.eqb_spec c 13) as [->|H13]; [reflexivity|].
  destruct (N.eqb_spec c 9) as [->|H9]; [reflexivity|].
  destruct (N.eqb_spec c 12) as [->|H12]; [reflexivity|].
  destruct (N.eqb_spec c 8) as [->|H8]; [reflexivity|].
  destruct ((32 <=? c) && (c <=? 126)) eqn:Hprint.
  { apply andb_true_iff in Hprint as [Hlo Hhi]. apply N.leb_le in Hlo, Hhi.
    cbn [app scanstring].
    rewrite (proj2 (N.eqb_neq c 34) H34), (proj2 (N.eqb_neq c 92) H92).
    by rewrite (proj2 (N.ltb_ge c 32) Hlo). }
  destruct (N.ltb_spec c 65536) as [Hbmp|Hbig].
  { rewrite scanstring_u_escape by done.
    destruct (is_high c) eqn:Hhigh; [|done].
    specialize (Hjoin eq_refl). unfold joins_with_next in Hjoin.
    destruct t as [|b [|u s4]]; try done.
    destruct ((b =? 92) && (u =? 117)); [|done].
    destruct s4 as [|g1 [|g2 [|g3 [|g4 s5]]]]; try done.
    destruct (decode_uXXXX g1 g2 g3 g4); [|done]. by rewrite Hjoin. }
  set (n := c - 65536).
  assert (Hn : n < 1048576) by (unfold n; lia).
  assert (Hcn : 65536 + n = c) by (unfold n; lia). clearbody n.
  destruct (surrogate_pair_parts n Hn) as (Hhi & Hlo & Hback).
  assert (Hdiv : n / 1024 < 1024) by (apply N.Div0.div_lt_upper_bound; lia).
  pose proof (N.mod_lt n 1024 ltac:(lia)) as Hmod.
  rewrite Hhi, Hlo, <- app_assoc. clear Hhi Hlo.
  set (q := n / 1024) in *. set (r := n mod 1024) in *. clearbody q r.
  rewrite scanstring_u_escape by lia.
  replace (is_high (55296 + q)) with true
    by (symmetry; apply andb_true_iff; split; apply N.leb_le; lia).
  unfold u_escape at 1. cbn [app].
  change ((92 =? 92) && (117 =? 117)) with true. cbv iota.
  rewrite (decode_u_escape (56320 + r)) by lia.
  replace (is_low (56320 + r)) with true
    by (symmetry; apply andb_true_iff; split; apply N.leb_le; lia).
  replace (55296 + q - 55296) with q by lia.
  replace (56320 + r - 56320) with r by lia.
  by rewrite Hback, Hcn.
Qed.

Lemma joins_with_next_quote (rest : text) : joins_with_next (34 :: rest) = false.
Proof. by destruct rest. Qed.

Lemma joins_with_next_escape (c : N) (t : text) :
  c < 1114112 -> joins_with_next (escape_char c ++ t) = true -> is_low c = true.
Proof.
  intros Hc. unfold escape_char.
  destruct (N.eqb_spec c 34) as [->|H34]; [done|].
  destruct (N.eqb_spec c 92) as [->|H92]; [done|].
  destruct (N.eqb_spec c 10) as [->|H10]; [done|].
  destruct (N.eqb_spec c 13) as [->|H13]; [done|].
  destruct (N.eqb_spec c 9) as [->|H9]; [done|].
  destruct (N.eqb_spec c 12) as [->|H12]; [done|].
  destruct (N.eqb_spec c 8) as [->|H8]; [done|].
  destruct ((32 <=? c) && (c <=? 126)) eqn:Hprint.
  { cbn [app joins_with_next]. destruct t as [|u s4]; [done|].
    by rewrite (proj2 (N.eqb_neq c 92) H92). }
  destruct (N.ltb_spec c 65536) as [Hbmp|Hbig].
  { unfold u_escape. cbn [app joins_with_next].
    change ((92 =? 92) && (117 =? 117)) with true. cbv iota.
    by rewrite (decode_u_escape c Hbmp). }
  set (n := c - 65536).
  assert (Hn : n < 1048576) by (unfold n; lia). clearbody n.
  destruct (surrogate_pair_parts n Hn) as (Hhi & _ & _).
  assert (Hdiv : n / 1024 < 1024) by (apply N.Div0.div_lt_upper_bound; lia).
  rewrite Hhi, <- app_assoc. set (q := n / 1024) in *. clearbody q.
  unfold u_escape at 1. cbn [app joins_with_next].
  change ((92 =? 92) && (117 =? 117)) with true. cbv iota.
  rewrite (decode_u_escape (55296 + q)) by lia.
  intros Hlow. apply andb_true_iff in Hlow as [Hlo _]. apply N.leb_le in Hlo. lia.
Qed.

Lemma scanstring_escaped (s : text) : forall chunks rest : text,
  valid_str s = true ->
  scanstring (flat_map escape_char s ++ 34 :: rest) chunks = Ok (chunks ++ s, rest).
Proof.
  unfold valid_str. induction s as [|c s IH]; intros chunks rest Hs.
  - cbn [flat_map app scanstring]. change (34 =? 34) with true. cbv iota.
    by rewrite app_nil_r.
  - apply andb_true_iff in Hs as [Hall Hpairs].
    cbn [forallb] in Hall. apply andb_true_iff in Hall as [Hc Hall].
    apply N.ltb_lt in Hc.
    cbn [no_joined_surrogates] in Hpairs. apply andb_true_iff in Hpairs as [Hpair Hpairs].
    cbn [flat_map]. rewrite <- app_assoc.
    rewrite scanstring_escape_char; [|done|].
    + rewrite IH by (by rewrite Hall, Hpairs). by rewrite <- app_assoc.
    + intros Hhigh. destruct s as [|c2 s]; [apply joins_with_next_quote|].
      cbn [flat_map]. rewrite <- app_assoc.
      destruct (joins_with_next _) eqn:Hj; [|done].
      cbn [forallb] in Hall. apply andb_true_iff in Hall as [Hc2 _].
      apply N.ltb_lt in Hc2. apply joins_with_next_escape in Hj; [|done].
      by rewrite Hhigh, Hj in Hpair.
Qed.

Lemma scanstring_encoded (s rest : text) :
  valid_str s = true ->
  exists body, encode_basestring_ascii s ++ rest = 34 :: body
               /\ scanstring body [] = Ok (s, rest).
Proof.
  intros Hs. exists (flat_map escape_char s ++ 34 :: rest). split.
  - unfold encode_basestring_ascii. cbn [app]. by rewrite <- app_assoc.
  - by rewrite scanstring_escaped.
Qed.

(** *** Integers: the scanner reads back what [int.__repr__] wrote *)

Lemma span_digits_uint_text (u : Decimal.uint) (rest : text) :
  ends_number rest = true ->
  span_digits (uint_text u ++ rest) = (u, rest).
Proof.
  intros Hrest. induction u; cbn [uint_text app span_digits];
    try (change (is_digit (digit_char _)) with true; cbv iota; rewrite IHu; reflexivity).
  destruct rest as [|c rest]; [done|]. cbn [span_digits].
  unfold ends_number in Hrest. by destruct (is_digit c).
Qed.

Lemma ends_number_no_fraction (rest : text) :
  ends_number rest = true -> has_frac rest || has_exp rest = false.
Proof.
  destruct rest as [|c rest]; [done|]. unfold ends_number, has_frac, has_exp.
  intros H. apply andb_true_iff in H as [H H69]. apply andb_true_iff in H as [H H101].
  apply andb_true_iff in H as [_ H46].
  apply negb_true_iff in H46, H101, H69. rewrite H46, H101, H69.
  by destruct rest.
Qed.

Lemma nzhead_not_D0 (u u' : Decimal.uint) : nzhead u <> D0 u'.
Proof. induction u; simpl; congruence. Qed.

Lemma to_uint_head (p : positive) :
  exists c t, uint_text (Pos.to_uint p) = c :: t
              /\ is_digit c = true /\ (c =? 48) = false /\ (c =? 45) = false.
Proof.
  pose proof (DecimalPos.Unsigned.to_of (Pos.to_uint p)) as Hnorm.
  rewrite DecimalPos.Unsigned.of_to in Hnorm. simpl in Hnorm.
  pose proof (DecimalPos.Unsigned.to_uint_nonnil p) as Hnil.
  pose proof (DecimalPos.Unsigned.to_uint_nonzero p) as Hzero.
  destruct (Pos.to_uint p) as [|u|u|u|u|u|u|u|u|u|u] eqn:Hu; try done;
    try (eexists _, _; split; [reflexivity|done]).
  exfalso. unfold unorm in Hnorm. simpl in Hnorm.
  destruct (nzhead u) eqn:Hz; try discriminate Hnorm.
  - exact (Hzero Hnorm).
  - exact (nzhead_not_D0 _ _ Hz).
Qed.

Lemma match_number_digits (neg : bool) (u : Decimal.uint) (c : N) (t rest : text) :
  uint_text u = c :: t ->
  is_digit c = true -> (c =? 48) = false -> (c =? 45) = false ->
  ends_number rest = true ->
  match_number ((if neg then [45] else []) ++ uint_text u ++ rest)
  = IntTok (if neg then - Z.of_N (N.of_uint u) else Z.of_N (N.of_uint u))%Z rest.
Proof.
  intros Hct Hd H48 H45 Hrest.
  pose proof (span_digits_uint_text u rest Hrest) as Hspan.
  assert (Hs : uint_text u ++ rest = c :: (t ++ rest)) by (by rewrite Hct).
  unfold match_number. destruct neg; cbn [app].
  - change (45 =? 45) with true. cbv iota. rewrite Hs, H48, Hd, <- Hs, Hspan.
    unfold number_end. by rewrite ends_number_no_fraction.
  - rewrite Hs, H45. cbv iota. rewrite H48, Hd, <- Hs, Hspan.
    unfold number_end. by rewrite ends_number_no_fraction.
Qed.

Lemma match_number_int_repr (z : Z) (rest : text) :
  ends_number rest = true -> match_number (int_repr z ++ rest) = IntTok z rest.
Proof.
  intros Hrest. destruct z as [|p|p]; unfold int_repr.
  - unfold match_number. cbn [app]. change (48 =? 45) with false.
    change (48 =? 48) with true. cbv iota. unfold number_end.
    by rewrite ends_number_no_fraction.
  - destruct (to_uint_head p) as (c & t & Hct & Hd & H48 & H45).
    pose proof (match_number_digits false (Pos.to_uint p) c t rest Hct Hd H48 H45 Hrest)
      as Hm.
    cbn [app] in Hm. rewrite Hm. unfold N.of_uint.
    by rewrite DecimalPos.Unsigned.of_to.
  - destruct (to_uint_head p) as (c & t & Hct & Hd & H48 & H45).
    pose proof (match_number_digits true (Pos.to_uint p) c t rest Hct Hd H48 H45 Hrest)
      as Hm.
    cbn [app] in Hm. cbn [app]. rewrite Hm. unfold N.of_uint.
    by rewrite DecimalPos.Unsigned.of_to.
Qed.

Lemma int_repr_head (z : Z) :
  exists c t, int_repr z = c :: t /\ (is_digit c = true \/ c = 45).
Proof.
  destruct z as [|p|p]; unfold int_repr.
  - exists 48, []. by split; [|left].
  - destruct (to_uint_head p) as (c & t & Hct & Hd & _). exists c, t. by split; [|left].
  - eexists _, _. by split; [|right].
Qed.

Lemma strip_prefix_head (a c : N) (p r : text) :
  (a =? c) = false -> strip_prefix (a :: p) (c :: r) = None.
Proof. intros H. cbn [strip_prefix]. by rewrite H. Qed.

Lemma scan_once_int (fuel : nat) (z : Z) (rest : text) :
  ends_number rest = true ->
  scan_once (S fuel) (int_repr z ++ rest) = Ok (JInt z, rest).
Proof.
  intros Hrest. pose proof (match_number_int_repr z rest Hrest) as Hm.
  destruct (int_repr_head z) as (c & t & Hct & Hc). rewrite Hct in *.
  cbn [app] in *. cbn [scan_once].
  assert (Hrange : 48 <= c <= 57 \/ c = 45).
  { destruct Hc as [Hd| ->]; [left|by right].
    unfold is_digit in Hd. apply andb_true_iff in Hd as [H1 H2].
    apply N.leb_le in H1, H2. lia. }
  rewrite (proj2 (N.eqb_neq c 34)) by lia.
  rewrite (proj2 (N.eqb_neq c 123)) by lia.
  rewrite (proj2 (N.eqb_neq c 91)) by lia.
  change (txt "null") with [110; 117; 108; 108].
  change (txt "true") with [116; 114; 117; 101].
  change (txt "false") with [102; 97; 108; 115; 101].
  rewrite !strip_prefix_head by (apply N.eqb_neq; lia).
  by rewrite Hm.
Qed.

(** *** Values: [scan_once] reads back what [dumps] wrote *)

Lemma skip_ws_head (c : N) (t : text) : is_ws c = false -> skip_ws (c :: t) = c :: t.
Proof. intros H. cbn [skip_ws]. by rewrite H. Qed.

Lemma dumps_head (o : Jsonable) :
  exists c t, dumps o = c :: t /\ is_ws c = false /\ (c =? 93) = false.
Proof.
  destruct o as [|[]|z|s|items|items]; try (by eexists _, _).
  destruct (int_repr_head z) as (c & t & Hct & Hc). exists c, t.
  split; [done|].
  assert (48 <= c <= 57 \/ c = 45) as Hrange.
  { destruct Hc as [Hd| ->]; [left|by right].
    unfold is_digit in Hd. apply andb_true_iff in Hd as [H1 H2].
    apply N.leb_le in H1, H2. lia. }
  unfold is_ws.
  rewrite !(proj2 (N.eqb_neq c _)) by lia. done.
Qed.

Lemma join_cons (sep p : text) (ps : list text) :
  join sep (p :: ps) = p ++ match ps with [] => [] | _ => sep ++ join sep ps end.
Proof. destruct ps; [by rewrite app_nil_r|done]. Qed.

Lemma array_items_dumps (items : list Jsonable) :
  Forall reads_back items ->
  forallb valid_message items = true ->
  items <> [] ->
  forall (fuel : nat) (values : list Jsonable) (rest : text),
    (length items + list_sum (List.map jsize items) <= fuel)%nat ->
    array_items fuel (join [44] (List.map dumps items) ++ 93 :: rest) values
    = Ok (JList (values ++ items), rest).
Proof.
  induction 1 as [|x items Hx Hitems IH]; [done|].
  intros Hvalid _ fuel values rest Hfuel.
  cbn [forallb] in Hvalid. apply andb_true_iff in Hvalid as [Hvx Hvitems].
  cbn [length List.map list_sum] in Hfuel.
  destruct fuel as [|fuel]; [lia|]. cbn [array_items List.map].
  rewrite join_cons, <- app_assoc.
  destruct items as [|y items].
  - simpl in Hfuel.
    cbn [app List.map]. rewrite (Hx Hvx fuel (93 :: rest)) by (done || lia). cbn [obind].
    rewrite skip_ws_head by done. by change (93 =? 93) with true.
  - simpl in Hfuel.
    cbn [app List.map].
    rewrite (Hx Hvx fuel) by (done || lia). cbn [obind].
    rewrite skip_ws_head by done.
    change (44 =? 93) with false. change (44 =? 44) with true. cbv iota.
    destruct (dumps_head y) as (c & t & Hct & Hws & _).
    assert (Hskip : forall tail, skip_ws (join [44] (List.map dumps (y :: items)) ++ tail)
                            = join [44] (List.map dumps (y :: items)) ++ tail).
    { intros tail. cbn [List.map]. rewrite join_cons, Hct. cbn [app].
      by rewrite skip_ws_head. }
    rewrite Hskip. rewrite IH; [|done|done|simpl; lia].
    by rewrite <- app_assoc.
Qed.

Lemma object_items_dumps (items : list (text * Jsonable)) :
  Forall (fun kv => reads_back (snd kv)) items ->
  forallb (fun kv => valid_str (fst kv) && valid_message (snd kv)) items = true ->
  items <> [] ->
  forall (fuel : nat) (pairs : list (text * Jsonable)) (rest body : text),
    (length items + list_sum (List.map (fun kv => jsize (snd kv)) items) <= fuel)%nat ->
    join [44] (List.map pair_text items) ++ 125 :: rest = 34 :: body ->
    object_items fuel body pairs = Ok (JDict (dict_of_pairs (pairs ++ items)), rest).
Proof.
  induction 1 as [|[k v] items Hv Hitems IH]; [done|].
  intros Hvalid _ fuel pairs rest body Hfuel Hbody.
  cbn [forallb fst snd] in Hvalid. apply andb_true_iff in Hvalid as [Hkv Hvitems].
  apply andb_true_iff in Hkv as [Hk Hvv]. cbn [snd] in Hv.
  simpl in Hfuel. destruct fuel as [|fuel]; [lia|].
  cbn [List.map] in Hbody. rewrite join_cons in Hbody.
  unfold pair_text at 1 in Hbody. cbn [fst snd] in Hbody.
  unfold encode_basestring_ascii in Hbody. cbn [app] in Hbody.
  rewrite <- !app_assoc in Hbody. cbn [app] in Hbody.
  injection Hbody as <-.
  cbn [object_items]. rewrite scanstring_escaped by done. cbn [obind app].
  rewrite skip_ws_head by done. change (58 =? 58) with true. cbv iota.
  destruct (dumps_head v) as (c & t & Hct & Hws & _).
  assert (Hskip : forall tail, skip_ws (dumps v ++ tail) = dumps v ++ tail).
  { intros tail. rewrite Hct. cbn [app]. by rewrite skip_ws_head. }
  rewrite Hskip. destruct items as [|kv2 items].
  - cbn [List.map app]. rewrite (Hv Hvv fuel (125 :: rest)) by (done || lia).
    cbn [obind]. rewrite skip_ws_head by done. by change (125 =? 125) with true.
  - cbn [List.map app]. rewrite (Hv Hvv fuel) by (done || lia).
    cbn [obind]. rewrite skip_ws_head by done.
    change (44 =? 125) with false. change (44 =? 44) with true. cbv iota.
    assert (Hnext : exists body2,
              join [44] (pair_text kv2 :: List.map pair_text items) ++ 125 :: rest
              = 34 :: body2) by (rewrite join_cons; by eexists).
    destruct Hnext as [body2 Hbody2]. rewrite Hbody2.
    rewrite skip_ws_head by done. change (34 =? 34) with true. cbv iota.
    rewrite (IH Hvitems ltac:(done) fuel (pairs ++ [(k, v)]) rest body2);
      [|simpl in *; lia|exact Hbody2].
    by rewrite <- app_assoc.
Qed.

Lemma dict_of_pairs_fresh {V} (d acc : list (text * V)) :
  unique_keys d = true ->
  (forall kv, In kv d -> dict_get acc (fst kv) = None) ->
  fold_left (fun d kv => dict_set d (fst kv) (snd kv)) d acc = acc ++ d.
Proof.
  revert acc. induction d as [|[k v] d IH]; intros acc Hu Hacc; cbn [fold_left].
  - by rewrite app_nil_r.
  - cbn [unique_keys fst snd] in *. apply andb_true_iff in Hu as [Hk Hu].
    apply negb_true_iff, dict_contains_false in Hk.
    rewrite dict_set_fresh by (apply (Hacc (k, v)); by left).
    rewrite IH; [by rewrite <- app_assoc|done|].
    intros [k' v'] Hin. cbn [fst].
    rewrite <- (dict_set_fresh acc k v) by (apply (Hacc (k, v)); by left).
    rewrite dict_get_set_ne.
    + apply (Hacc (k', v')). by right.
    + intros ->. apply dict_get_None_keys in Hk. apply Hk.
      unfold dict_keys. apply in_map_iff. by exists (k', v').
Qed.

Lemma dict_of_pairs_unique {V} (d : list (text * V)) :
  unique_keys d = true -> dict_of_pairs d = d.
Proof. intros Hu. unfold dict_of_pairs. by rewrite dict_of_pairs_fresh. Qed.

Lemma reads_back_all (o : Jsonable) : reads_back o.
Proof.
  induction o as [|b|z|s|items IH|items IH] using Jsonable_nested_ind;
    intros Hvalid fuel rest Hfuel Hrest;
    (destruct fuel as [|fuel]; [simpl in Hfuel; lia|]).
  - reflexivity.
  - by destruct b.
  - by apply scan_once_int.
  - destruct (scanstring_encoded s rest Hvalid) as (body & Hbody & Hscan).
    cbn [dumps]. rewrite Hbody. cbn [scan_once]. change (34 =? 34) with true.
    cbv iota. by rewrite Hscan.
  - cbn [dumps valid_message jsize] in *. cbn [app]. rewrite <- app_assoc. cbn [app].
    cbn [scan_once]. change (91 =? 34) with false. change (91 =? 123) with false.
    change (91 =? 91) with true. cbv iota.
    destruct items as [|x items]; [reflexivity|].
    destruct (dumps_head x) as (c & t & Hct & Hws & H93).
    assert (Hhead : exists tail,
              join [44] (List.map dumps (x :: items)) ++ 93 :: rest = c :: tail)
      by (cbn [List.map]; rewrite join_cons, Hct; by eexists).
    destruct Hhead as [tail Htail]. rewrite Htail, skip_ws_head, H93 by done.
    rewrite <- Htail. rewrite (array_items_dumps (x :: items) IH Hvalid); [done|done|lia].
  - cbn [dumps valid_message jsize] in *. apply andb_true_iff in Hvalid as [Hu Hvalid].
    cbn [app]. rewrite <- app_assoc. cbn [app].
    cbn [scan_once]. change (123 =? 34) with false. change (123 =? 123) with true.
    cbv iota.
    destruct items as [|kv items]; [reflexivity|].
    assert (Hhead : exists body,
              join [44] (List.map pair_text (kv :: items)) ++ 125 :: rest = 34 :: body)
      by (cbn [List.map]; rewrite join_cons; by eexists).
    destruct Hhead as [body Hbody].
    change (List.map (fun kv0 => encode_basestring_ascii (fst kv0) ++ 58 :: dumps (snd kv0))
              (kv :: items)) with (List.map pair_text (kv :: items)).
    rewrite Hbody, skip_ws_head by done.
    change (34 =? 125) with false. change (34 =? 34) with true. cbv iota.
    rewrite (object_items_dumps (kv :: items) IH Hvalid ltac:(done) fuel [] rest body);
      [|lia|exact Hbody].
    cbn [app]. by rewrite dict_of_pairs_unique.
Qed.

Lemma join_length (parts : list text) :
  (length parts + list_sum (List.map (@length N) parts)
   <= length (join [44%N] parts) + 1)%nat.
Proof.
  induction parts as [|p ps IH]; [simpl; lia|].
  rewrite join_cons. destruct ps as [|p' ps].
  - simpl. rewrite app_nil_r. lia.
  - rewrite !length_app. simpl in *. lia.
Qed.

Lemma jsize_le_length (o : Jsonable) : (jsize o <= length (dumps o))%nat.
Proof.
  induction o as [|b|z|s|items IH|items IH] using Jsonable_nested_ind.
  1-4: match goal with |- (_ <= length (dumps ?o))%nat =>
         destruct (dumps_head o) as (c & t & -> & _); simpl; lia end.
  - cbn [jsize dumps]. simpl length. rewrite length_app. simpl length.
    assert (list_sum (List.map jsize items)
            <= list_sum (List.map (@length N) (List.map dumps items)))%nat.
    { induction IH; simpl; lia. }
    pose proof (join_length (List.map dumps items)) as Hj.
    rewrite length_map in Hj. lia.
  - cbn [jsize dumps]. fold pair_text. cbn [length]. rewrite length_app. cbn [length].
    assert (list_sum (List.map (fun kv => jsize (snd kv)) items)
            <= list_sum (List.map (@length N) (List.map pair_text items)))%nat.
    { induction IH as [|kv l Hkv Hl IHl]; [simpl; lia|].
      cbn [List.map list_sum fold_right]. unfold pair_text at 1.
      rewrite length_app. cbn [length]. unfold list_sum in *. lia. }
    pose proof (join_length (List.map pair_text items)) as Hj.
    rewrite length_map in Hj. unfold text in *. lia.
Qed.

Lemma loads_dumps (o : Jsonable) :
  valid_message o = true -> loads (dumps o ++ [10]) = Ok o.
Proof.
  intros Hvalid. unfold loads.
  destruct (dumps_head o) as (c & t & Hct & Hws & _).
  pose proof (dumps_printable o) as Hp. rewrite Hct in Hp.
  apply Forall_cons in Hp as [[Hlo Hhi] _].
  assert (Hbom : starts_with [65279] (dumps o ++ [10]) = false).
  { rewrite Hct. unfold starts_with. cbn [app strip_prefix].
    by rewrite (proj2 (N.eqb_neq 65279 c)) by lia. }
  rewrite Hbom.
  assert (Hskip : skip_ws (dumps o ++ [10]) = dumps o ++ [10]).
  { rewrite Hct. cbn [app]. by rewrite skip_ws_head. }
  rewrite Hskip.
  rewrite (reads_back_all o Hvalid); [done| |done].
  pose proof (jsize_le_length o). rewrite length_app. lia.
Qed.






(* ================================================================= *)
(** ** Part 6. Further properties of the module and of the examples *)

Ltac to_N_bytes :=
  rewrite ?byte_of_N_to_N by lia.

Lemma ltb_true (a b : N) : a < b -> (a <? b) = true.
Proof. apply N.ltb_lt. Qed.
Lemma ltb_false (a b : N) : b <= a -> (a <? b) = false.
Proof. apply N.ltb_ge. Qed.
Lemma leb_true (a b : N) : a <= b -> (a <=? b) = true.
Proof. apply N.leb_le. Qed.
Lemma eqb_false (a b : N) : a <> b -> (a =? b) = false.
Proof. apply N.eqb_neq. Qed.

Lemma utf8_decode_encode_char (c : N) (bs rest : list byte) :
  utf8_encode_char c = Ok bs ->
  utf8_decode (bs ++ rest) = try! t := utf8_decode rest in Ok (c :: t).
Proof.
  unfold utf8_encode_char, is_surrogate.
  destruct (N.ltb_spec c 128) as [H1|H1].
  { intros [= <-]. cbn [app utf8_decode]. to_N_bytes. by rewrite ltb_true. }
  destruct (N.ltb_spec c 2048) as [H2|H2].
  { intros [= <-].
    pose proof (N.div_mod c 64 ltac:(lia)) as Hdm.
    pose proof (N.mod_lt c 64 ltac:(lia)) as Hm.
    set (q := c / 64) in *. set (r := c mod 64) in *. clearbody q r.
    cbn [app utf8_decode]. to_N_bytes.
    rewrite (ltb_false (192 + q)) by lia. rewrite (ltb_false (192 + q) 194) by lia.
    rewrite (ltb_true (192 + q) 224) by lia.
    unfold in_range. rewrite !leb_true by lia. cbn [andb].
    replace ((192 + q - 192) * 64 + (128 + r - 128)) with c by lia. done. }
  destruct ((55296 <=? c) && (c <=? 57343)) eqn:Hs; [done|].
  assert (Hns : c < 55296 \/ 57343 < c).
  { apply andb_false_iff in Hs as [Hs|Hs]; [left; by apply N.leb_gt|right; by apply N.leb_gt]. }
  destruct (N.ltb_spec c 65536) as [H3|H3].
  { intros [= <-].
    pose proof (N.div_mod c 64 ltac:(lia)) as Hdm.
    pose proof (N.mod_lt c 64 ltac:(lia)) as Hm.
    pose proof (N.div_mod (c / 64) 64 ltac:(lia)) as Hdm2.
    pose proof (N.mod_lt (c / 64) 64 ltac:(lia)) as Hm2.
    rewrite (N.Div0.div_div c 64 64) in Hdm2. change (64 * 64) with 4096 in Hdm2.
    set (q := c / 4096) in *. set (r := c mod 64) in *.
    set (m := (c / 64) mod 64) in *. set (d := c / 64) in *. clearbody q r m d.
    cbn [app utf8_decode]. to_N_bytes.
    rewrite (ltb_false (224 + q) 128), (ltb_false (224 + q) 194), (ltb_false (224 + q) 224),
      (ltb_true (224 + q) 240) by lia.
    unfold in_range.
    assert (Hlo : ((if 224 + q =? 224 then 160 else 128) <=? 128 + m) = true).
    { destruct (N.eqb_spec (224 + q) 224); apply N.leb_le; lia. }
    assert (Hhi : (128 + m <=? (if 224 + q =? 237 then 159 else 191)) = true).
    { destruct (N.eqb_spec (224 + q) 237); apply N.leb_le; lia. }
    rewrite Hlo, Hhi, !leb_true by lia. cbn [andb].
    replace ((224 + q - 224) * 4096 + (128 + m - 128) * 64 + (128 + r - 128)) with c by lia.
    done. }
  destruct (N.ltb_spec c 1114112) as [H4|H4]; [|done].
  intros [= <-].
  pose proof (N.div_mod c 64 ltac:(lia)) as Hdm.
  pose proof (N.mod_lt c 64 ltac:(lia)) as Hm.
  pose proof (N.div_mod (c / 64) 64 ltac:(lia)) as Hdm2.
  pose proof (N.mod_lt (c / 64) 64 ltac:(lia)) as Hm2.
  rewrite (N.Div0.div_div c 64 64) in Hdm2. change (64 * 64) with 4096 in Hdm2.
  pose proof (N.div_mod (c / 4096) 64 ltac:(lia)) as Hdm3.
  pose proof (N.mod_lt (c / 4096) 64 ltac:(lia)) as Hm3.
  rewrite (N.Div0.div_div c 4096 64) in Hdm3. change (4096 * 64) with 262144 in Hdm3.
  set (q := c / 262144) in *. set (r := c mod 64) in *.
  set (m := (c / 64) mod 64) in *. set (d := c / 64) in *.
  set (m3 := (c / 4096) mod 64) in *. set (d3 := c / 4096) in *.
  clearbody q r m d m3 d3.
  cbn [app utf8_decode]. to_N_bytes.
  rewrite (ltb_false (240 + q) 128), (ltb_false (240 + q) 194), (ltb_false (240 + q) 224),
    (ltb_false (240 + q) 240), (ltb_true (240 + q) 245) by lia.
  unfold in_range.
  assert (Hlo : ((if 240 + q =? 240 then 144 else 128) <=? 128 + m3) = true).
  { destruct (N.eqb_spec (240 + q) 240); apply N.leb_le; lia. }
  assert (Hhi : (128 + m3 <=? (if 240 + q =? 244 then 143 else 191)) = true).
  { destruct (N.eqb_spec (240 + q) 244); apply N.leb_le; lia. }
  rewrite Hlo, Hhi, !leb_true by lia. cbn [andb].
  replace ((240 + q - 240) * 262144 + (128 + m3 - 128) * 4096 + (128 + m - 128) * 64
           + (128 + r - 128)) with c by lia.
  done.
Qed.

Lemma utf8_encode_app_inv (c : N) (s : text) (data : list byte) :
  utf8_encode (c :: s) = Ok data ->
  exists bs rest, utf8_encode_char c = Ok bs /\ utf8_encode s = Ok rest /\ data = bs ++ rest.
Proof.
  cbn [utf8_encode]. destruct (utf8_encode_char c) as [bs| |]; [|done..].
  cbn [obind]. destruct (utf8_encode s) as [rest| |]; [|done..].
  intros [= <-]. by exists bs, rest.
Qed.

Lemma utf8_decode_encode (s : text) (data : list byte) :
  utf8_encode s = Ok data -> utf8_decode data = Ok s.
Proof.
  revert data. induction s as [|c s IH]; intros data.
  - by intros [= <-].
  - intros (bs & rest & Hc & Hs & ->)%utf8_encode_app_inv.
    rewrite (utf8_decode_encode_char _ _ _ Hc), (IH _ Hs). done.
Qed.



(** The newline byte is only ever the encoding of the newline character. *)
Lemma utf8_encode_newline (s : text) (data : list byte) :
  utf8_encode s = Ok data -> In newline data -> contains_newline s = true.
Proof.
  revert data. induction s as [|c s IH]; intros data.
  - by intros [= <-].
  - intros (bs & rest & Hc & Hs & ->)%utf8_encode_app_inv Hin.
    unfold contains_newline. cbn [existsb]. apply orb_true_iff.
    apply in_app_or in Hin as [Hin|Hin]; [left|right; by apply (IH rest)].
    unfold utf8_encode_char in Hc.
    assert (Hb : forall n, n < 256 -> newline = byte_of_N n -> n = 10).
    { intros n Hn Heq. rewrite <- (byte_of_N_to_N n Hn), <- Heq. done. }
    destruct (N.ltb_spec c 128).
    { injection Hc as <-. destruct Hin as [Hin|[]]. symmetry in Hin.
      apply Hb in Hin; [|lia]. subst c. done. }
    pose proof (N.mod_lt c 64 ltac:(lia)).
    pose proof (N.mod_lt (c / 64) 64 ltac:(lia)).
    pose proof (N.mod_lt (c / 4096) 64 ltac:(lia)).
    exfalso.
    destruct (N.ltb_spec c 2048).
    { assert (c / 64 < 32) by (apply N.Div0.div_lt_upper_bound; lia).
      set (q := c / 64) in *. set (r := c mod 64) in *. clearbody q r.
      injection Hc as <-. cbn [In] in Hin.
      destruct Hin as [Hin|[Hin|[]]]; symmetry in Hin; apply Hb in Hin; lia. }
    destruct (is_surrogate c); [done|].
    destruct (N.ltb_spec c 65536).
    { assert (c / 4096 < 16) by (apply N.Div0.div_lt_upper_bound; lia).
      set (q := c / 4096) in *. set (r := c mod 64) in *.
      set (m := (c / 64) mod 64) in *. clearbody q r m.
      injection Hc as <-. cbn [In] in Hin.
      destruct Hin as [Hin|[Hin|[Hin|[]]]]; symmetry in Hin; apply Hb in Hin; lia. }
    destruct (N.ltb_spec c 1114112); [|done].
    assert (c / 262144 < 5) by (apply N.Div0.div_lt_upper_bound; lia).
    set (q := c / 262144) in *. set (r := c mod 64) in *.
    set (m := (c / 64) mod 64) in *. set (m3 := (c / 4096) mod 64) in *. clearbody q r m m3.
    injection Hc as <-. cbn [In] in Hin.
    destruct Hin as [Hin|[Hin|[Hin|[Hin|[]]]]]; symmetry in Hin; apply Hb in Hin; lia.
Qed.

Lemma utf8_encode_app (s t : text) :
  utf8_encode (s ++ t)
  = try! a := utf8_encode s in try! b := utf8_encode t in Ok (a ++ b).
Proof.
  induction s as [|c s IH]; cbn [app utf8_encode obind].
  - by destruct (utf8_encode t).
  - destruct (utf8_encode_char c) as [bs| |]; cbn [obind]; [|done..].
    rewrite IH. destruct (utf8_encode s) as [a| |]; cbn [obind]; [|done..].
    destruct (utf8_encode t) as [b| |]; cbn [obind]; [|done..].
    by rewrite app_assoc.
Qed.

Lemma utf8_encode_line (plod : text) :
  utf8_encode (plod ++ [10]) = try! body := utf8_encode plod in Ok (body ++ [newline]).
Proof. rewrite utf8_encode_app. by destruct (utf8_encode plod). Qed.

Lemma read_message_raw_full_line (self : HijackClient) (body rest : list byte) (t : text) :
  incoming (_reader self) = body ++ newline :: rest ->
  ~ In newline body ->
  N.of_nat (length body) <= limit (_reader self) ->
  utf8_decode body = Ok t ->
  _read_message_raw self
  = (Ok (Some (t ++ [10])), set_reader (consume rest (_reader self)) self).
Proof.
  intros Hinput Hbody Hlimit Ht. unfold _read_message_raw, readline.
  rewrite Hinput, (split_line_body _ _ Hbody), (before_newline_body _ _ Hbody).
  rewrite (proj2 (N.ltb_ge _ _) Hlimit). cbn [obind].
  rewrite utf8_decode_snoc_newline, Ht. cbn [obind].
  rewrite ends_with_newline_snoc, length_app. cbn [length negb orb].
  replace (length t + 1 =? 0)%nat with false by (symmetry; apply Nat.eqb_neq; lia).
  reflexivity.
Qed.





(** X2.  A line as [_send_message_raw] writes it is read back by
    [_read_message_raw] as the payload and its newline, when it is within
    the line limit of the reader; what follows the line stays in the
    stream. *)
Theorem raw_line_round_trip
    (plod : text) (sender sender' receiver : HijackClient) (data more : list byte) :
  _send_message_raw plod sender = (Ok tt, sender') ->
  written (_writer sender') = written (_writer sender) ++ data ->
  incoming (_reader receiver) = data ++ more ->
  N.of_nat (length data) <= limit (_reader receiver) + 1 ->
  _read_message_raw receiver
  = (Ok (Some (plod ++ [10])), set_reader (consume more (_reader receiver)) receiver).
Proof.
  intros Hsend Hwritten Hin Hlimit. unfold _send_message_raw in Hsend.
  destruct (contains_newline plod) eqn:Hnl; [done|].
  rewrite utf8_encode_line in Hsend.
  destruct (utf8_encode plod) as [body| |] eqn:Hbody; cbn [obind] in Hsend; [|done..].
  injection Hsend as <-. cbn [_writer set_writer written write] in Hwritten.
  apply app_inv_head in Hwritten. subst data.
  rewrite length_app in Hlimit. cbn [length] in Hlimit.
  apply read_message_raw_full_line with (body := body).
  - by rewrite Hin, <- app_assoc.
  - intros Hnew. apply (utf8_encode_newline _ _ Hbody) in Hnew. congruence.
  - lia.
  - by apply utf8_decode_encode.
Qed.

Lemma raw_line_round_trip_witness :
  _read_message_raw (listening (bytes_of "hi" ++ [newline] ++ bytes_of "more"))
  = (Ok (Some (txt "hi" ++ [10])), listening (bytes_of "more")).
Proof.
  apply (raw_line_round_trip (txt "hi") alice
           (set_writer (write (bytes_of "hi" ++ [newline]) (_writer alice)) alice)
           (listening (bytes_of "hi" ++ [newline] ++ bytes_of "more"))
           (bytes_of "hi" ++ [newline]) (bytes_of "more"));
    [reflexivity..|by apply N.leb_le].
Defined.

Lemma utf8_decode_printable (s : text) :
  Forall printable s -> utf8_decode (List.map byte_of_N s) = Ok s.
Proof.
  induction 1 as [|c s [Hlo Hhi] Hs IH]; [done|].
  cbn [List.map utf8_decode]. rewrite byte_of_N_to_N by lia.
  rewrite (ltb_true c 128) by lia. by rewrite IH.
Qed.

Lemma read_message_wire (msg : Jsonable) (receiver : HijackClient) (more : list byte) :
  valid_message msg = true ->
  incoming (_reader receiver) = wire msg ++ more ->
  N.of_nat (length (dumps msg)) <= limit (_reader receiver) ->
  read_message receiver
  = (Ok msg, set_reader (consume more (_reader receiver)) receiver).
Proof.
  intros Hvalid Hin Hlimit.
  destruct (wire_shape msg) as [Hwire Hbody].
  destruct (read_message_full_line receiver (List.map byte_of_N (dumps msg)) more)
    as [_ Hok].
  - rewrite Hin, Hwire, <- app_assoc. reflexivity.
  - exact Hbody.
  - by rewrite length_map.
  - rewrite (Hok (dumps msg)); [by rewrite loads_dumps|].
    apply utf8_decode_printable, dumps_printable.
Qed.





Lemma skip_ws_blank (ws : text) :
  forallb is_ws ws = true -> skip_ws (ws ++ [10]) = [].
Proof.
  induction ws as [|c ws IH]; [done|]. cbn [forallb app skip_ws].
  intros [Hc Hws]%andb_prop. rewrite Hc. by apply IH.
Qed.

Lemma is_ws_ascii (c : N) : is_ws c = true -> c = 32 \/ c = 9 \/ c = 10 \/ c = 13.
Proof.
  unfold is_ws. intros H.
  repeat (apply orb_prop in H as [H|H]); apply N.eqb_eq in H; tauto.
Qed.

(** X4.  A line that holds nothing, or nothing but spaces, tabs and
    carriage returns, is not skipped and is not the end of the stream:
    [read_message] raises [JSONDecodeError], and the line is consumed. *)
Theorem blank_line_raises (self : HijackClient) (ws : text) (rest : list byte) :
  forallb (fun c => is_ws c && negb (c =? 10)) ws = true ->
  incoming (_reader self) = List.map byte_of_N ws ++ newline :: rest ->
  N.of_nat (length ws) <= limit (_reader self) ->
  read_message self
  = (Raise JSONDecodeError, set_reader (consume rest (_reader self)) self).
Proof.
  intros Hws Hin Hlimit.
  assert (Hall : Forall (fun c => is_ws c = true /\ c <> 10) ws).
  { apply Forall_forall. intros c Hc. rewrite forallb_forall in Hws.
    apply list_elem_of_In in Hc. apply Hws in Hc. apply andb_prop in Hc as [H1 H2].
    split; [done|]. apply negb_true_iff in H2. by apply N.eqb_neq. }
  destruct (read_message_full_line self (List.map byte_of_N ws) rest) as [_ Hok].
  - exact Hin.
  - intros Hnew. apply in_map_iff in Hnew as (c & Hc & Hcin).
    rewrite Forall_forall in Hall. apply list_elem_of_In in Hcin.
    destruct (Hall c Hcin) as [Hw Hne]. apply is_ws_ascii in Hw.
    assert (Byte.to_N (byte_of_N c) = c) as Hto by (apply byte_of_N_to_N; lia).
    rewrite Hc in Hto. cbn in Hto. congruence.
  - by rewrite length_map.
  - rewrite (Hok ws).
    + unfold loads.
      assert (Hbom : starts_with [65279] (ws ++ [10]) = false).
      { destruct Hall as [|c ws' [Hw _] _]; [done|].
        unfold starts_with. cbn [app strip_prefix]. apply is_ws_ascii in Hw.
        by rewrite (eqb_false 65279 c) by lia. }
      rewrite Hbom, skip_ws_blank.
      { destruct (2 * length (ws ++ [10%N]) + 2)%nat as [|fuel] eqn:Hf; [lia|done]. }
      apply forallb_forall. intros c Hc. rewrite Forall_forall in Hall.
      apply list_elem_of_In in Hc. by destruct (Hall c Hc).
    + clear -Hall. induction Hall as [|c ws' [Hw _] _ IH]; [done|].
      cbn [List.map utf8_decode]. apply is_ws_ascii in Hw.
      rewrite byte_of_N_to_N by lia. rewrite (ltb_true c 128) by lia. by rewrite IH.
Qed.

Lemma blank_line_raises_witness :
  read_message (listening (line_of "  " ++ line_of "[1]"))
  = (Raise JSONDecodeError, listening (line_of "[1]")).
Proof.
  apply (blank_line_raises (listening (line_of "  " ++ line_of "[1]")) (txt "  ")
           (line_of "[1]")); [reflexivity|reflexivity|by apply N.leb_le].
Defined.

Lemma map_byte_of_N_inj (s t : text) :
  Forall (fun c => c < 256) s -> Forall (fun c => c < 256) t ->
  List.map byte_of_N s = List.map byte_of_N t -> s = t.
Proof.
  intros Hs. revert t. induction Hs as [|c s Hc Hs IH]; intros t Ht Heq.
  - destruct t; [done|discriminate].
  - destruct Ht as [|d t Hd Ht]; [discriminate|]. cbn [List.map] in Heq.
    injection Heq as Hcd Hst. f_equal; [|by apply IH].
    by rewrite <- (byte_of_N_to_N c Hc), <- (byte_of_N_to_N d Hd), Hcd.
Qed.

(** X5.  No two messages share a line: messages whose lines on the wire
    are the same bytes are the same message. *)
Theorem wire_is_injective (m1 m2 : Jsonable) :
  valid_message m1 = true -> valid_message m2 = true ->
  wire m1 = wire m2 -> m1 = m2.
Proof.
  intros H1 H2 Heq. unfold wire in Heq.
  apply map_byte_of_N_inj in Heq.
  - apply loads_dumps in H1, H2. rewrite Heq in H1. congruence.
  - eapply Forall_impl; [apply dumps_line_ascii|]. cbn. lia.
  - eapply Forall_impl; [apply dumps_line_ascii|]. cbn. lia.
Qed.

Lemma wire_is_injective_witness :
  wire (JInt 1) = wire (JInt 1) /\ JInt 1 = JInt 1.
Proof.
  split; [reflexivity|].
  apply (wire_is_injective (JInt 1) (JInt 1)); reflexivity.
Defined.

Lemma dict_get_of_pairs {V} (items : list (text * V)) (k : text) :
  dict_get (dict_of_pairs items) k = last_value items k.
Proof.
  unfold last_value, dict_of_pairs.
  induction items as [|[k' v] items IH] using rev_ind; [done|].
  rewrite fold_left_app, rev_unit. cbn [fold_left fst snd dict_get].
  destruct (decide (k' = k)) as [->|Hne].
  - apply dict_get_set_eq.
  - by rewrite dict_get_set_ne.
Qed.

Lemma scan_once_object_text (items : list (text * Jsonable)) (fuel : nat) (rest : text) :
  forallb (fun kv => valid_str (fst kv) && valid_message (snd kv)) items = true ->
  (jsize (JDict items) <= fuel)%nat ->
  scan_once fuel (object_text items ++ rest) = Ok (JDict (dict_of_pairs items), rest).
Proof.
  intros Hvalid Hfuel. destruct fuel as [|fuel]; [simpl in Hfuel; lia|].
  cbn [jsize] in Hfuel. unfold object_text. cbn [app]. rewrite <- app_assoc. cbn [app].
  cbn [scan_once]. change (123 =? 34) with false. change (123 =? 123) with true.
  cbv iota.
  destruct items as [|kv items]; [reflexivity|].
  assert (Hhead : exists body,
            join [44] (List.map pair_text (kv :: items)) ++ 125 :: rest = 34 :: body)
    by (cbn [List.map]; rewrite join_cons; by eexists).
  destruct Hhead as [body Hbody].
  rewrite Hbody, skip_ws_head by done.
  change (34 =? 125) with false. change (34 =? 34) with true. cbv iota.
  rewrite (object_items_dumps (kv :: items)) with (rest := rest); [done| |done|done|lia|done].
  apply Forall_forall. intros x _. apply reads_back_all.
Qed.

Lemma object_text_dumps (items : list (text * Jsonable)) :
  object_text items = dumps (JDict items).
Proof. reflexivity. Qed.

(** X6.  A line that spells an object with a key more than once is
    accepted, and the last member with a key is the one that counts: it
    is the value [read_message] returns for the key, at the place of the
    first, and so what [name] and [lobby] give for a first message that
    repeats a field. *)
Theorem repeated_field_last_wins
    (items : list (text * Jsonable)) (self : HijackClient) (rest : list byte) :
  forallb (fun kv => valid_str (fst kv) && valid_message (snd kv)) items = true ->
  incoming (_reader self) = List.map byte_of_N (object_text items) ++ newline :: rest ->
  N.of_nat (length (object_text items)) <= limit (_reader self) ->
  read_message self
  = (Ok (JDict (dict_of_pairs items)), set_reader (consume rest (_reader self)) self)
  /\ forall (c : HijackClient) (k : text),
       metadata_item (set_metadata (JDict (dict_of_pairs items)) c) k
       = match last_value items k with
         | Some v => Ok v
         | None => Raise KeyError
         end.
Proof.
  intros Hvalid Hin Hlimit. split.
  - assert (Hp : Forall printable (object_text items))
      by (rewrite object_text_dumps; apply dumps_printable).
    destruct (read_message_full_line self (List.map byte_of_N (object_text items)) rest)
      as [_ Hok].
    + exact Hin.
    + rewrite object_text_dumps. apply wire_shape.
    + by rewrite length_map.
    + rewrite (Hok (object_text items)) by (by apply utf8_decode_printable).
      f_equal. unfold loads.
      assert (Hbom : starts_with [65279] (object_text items ++ [10]) = false) by done.
      rewrite Hbom.
      assert (Hskip : skip_ws (object_text items ++ [10]) = object_text items ++ [10])
        by done.
      rewrite Hskip, scan_once_object_text; [done|done|].
      pose proof (jsize_le_length (JDict items)) as Hsize.
      rewrite <- object_text_dumps in Hsize. rewrite length_app. lia.
  - intros c k. rewrite metadata_item_set_metadata. cbn [py_getitem].
    by rewrite dict_get_of_pairs.
Qed.

Lemma repeated_field_last_wins_witness :
  read_message
    (listening
       (List.map byte_of_N
          (object_text [(txt "name", JStr (txt "a")); (txt "name", JStr (txt "b"))])
        ++ [newline]))
  = (Ok (JDict [(txt "name", JStr (txt "b"))]), listening []).
Proof.
  apply (repeated_field_last_wins
           [(txt "name", JStr (txt "a")); (txt "name", JStr (txt "b"))]
           (listening
              (List.map byte_of_N
                 (object_text [(txt "name", JStr (txt "a")); (txt "name", JStr (txt "b"))])
               ++ [newline])) []); [reflexivity|reflexivity|by apply N.leb_le].
Defined.

(** *** The client side of the handshake *)

Lemma finish_connect_client_eq reader writer (metadata : Jsonable) :
  _finish_connect_client reader writer metadata
  = let this2 := set_writer (write (wire metadata) writer)
                   (set_metadata metadata (unconnected reader writer)) in
    try! starting := fst (read_message this2) in
    Ok (set_starting_metadata starting (snd (read_message this2))).
Proof.
  unfold _finish_connect_client, HijackClient_init. cbn [Z.eqb Pos.eqb negb obind].
  rewrite send_message_writes. cbn [obind].
  fold (unconnected reader writer).
  change (_writer (set_metadata metadata (unconnected reader writer))) with writer.
  by destruct (read_message _) as [res this3].
Qed.

Lemma read_message_writer (c : HijackClient) :
  _writer (snd (read_message c)) = _writer c
  /\ _metadata (snd (read_message c)) = _metadata c.
Proof. destruct (read_message_state c) as [r ->]. done. Qed.



(** X8.  The roster the server sends is the roster the client holds:
    when the stream of a client starts with the line that
    [send_starting_metadata] wrote for it, [_finish_connect_client]
    returns a client whose [others] is the list that was sent, with the
    rest of the stream left to be read. *)
Theorem roster_reaches_client
    (os : list Jsonable) (remote remote' : HijackClient) (data more : list byte)
    (reader : StreamReader) (writer : StreamWriter) (metadata : Jsonable) :
  forallb valid_message os = true ->
  send_starting_metadata os remote = (Ok tt, remote') ->
  written (_writer remote') = written (_writer remote) ++ data ->
  incoming reader = data ++ more ->
  N.of_nat (length data) <= limit reader + 1 ->
  exists client,
    _finish_connect_client reader writer metadata = Ok client
    /\ others client = Ok (JList os)
    /\ _starting_metadata client = _starting_metadata remote'
    /\ _metadata client = Some metadata
    /\ incoming (_reader client) = more.
Proof.
  intros Hos Hsend Hwritten Hin Hlimit.
  unfold send_starting_metadata in Hsend.
  destruct (negb (is_None (_starting_metadata remote))); [done|].
  rewrite send_message_writes in Hsend. injection Hsend as <-.
  cbn [_writer set_writer set_starting_metadata written write] in Hwritten.
  apply app_inv_head in Hwritten. subst data.
  assert (Hvalid : valid_message (starting_metadata os) = true).
  { unfold starting_metadata. cbn [valid_message forallb unique_keys fst snd].
    rewrite Hos. reflexivity. }
  rewrite finish_connect_client_eq. cbv zeta.
  set (this2 := set_writer _ _).
  assert (Hlen : N.of_nat (length (dumps (starting_metadata os))) <= limit (_reader this2)).
  { unfold wire in Hlimit. rewrite length_map, length_app in Hlimit.
    cbn [length] in Hlimit. cbn [this2 _reader set_writer set_metadata unconnected]. lia. }
  rewrite (read_message_wire (starting_metadata os) this2 more Hvalid Hin Hlen).
  cbn [fst snd obind]. eexists. split; [done|]. repeat split; reflexivity.
Qed.

Lemma roster_reaches_client_witness :
  exists client,
    _finish_connect_client (sample_reader (wire (starting_metadata [JStr (txt "bob")])))
      sample_writer (identity "alice" "t") = Ok client
    /\ others client = Ok (JList [JStr (txt "bob")]).
Proof.
  destruct (roster_reaches_client [JStr (txt "bob")] alice
              (started [JStr (txt "bob")] alice)
              (wire (starting_metadata [JStr (txt "bob")])) []
              (sample_reader (wire (starting_metadata [JStr (txt "bob")])))
              sample_writer (identity "alice" "t"))
    as (client & Hc & Ho & _);
    [reflexivity|reflexivity|reflexivity|reflexivity|by apply N.leb_le|].
  by exists client.
Defined.

(** X9.  [_finish_connect_client] does not fail when the server closes
    the connection before the lobby starts: with no complete line to read,
    it returns a client whose starting metadata is [None], and the failure
    comes later, as the [TypeError] of [others]. *)
Theorem connect_survives_closed_stream
    (reader : StreamReader) (writer : StreamWriter) (metadata : Jsonable) (res : text) :
  ~ In newline (incoming reader) ->
  utf8_decode (incoming reader) = Ok res ->
  N.of_nat (length (incoming reader)) <= limit reader ->
  exists client,
    _finish_connect_client reader writer metadata = Ok client
    /\ _starting_metadata client = JNull
    /\ others client = Raise TypeError
    /\ written (_writer client) = written writer ++ wire metadata.
Proof.
  intros Hnl Hres Hlimit. rewrite finish_connect_client_eq. cbv zeta.
  set (this2 := set_writer _ _).
  destruct (read_message_at_eof this2 Hnl Hlimit) as [Hok _].
  rewrite (Hok res Hres). cbn [fst snd obind]. eexists. split; [done|].
  repeat split; reflexivity.
Qed.

Lemma connect_survives_closed_stream_witness :
  exists client,
    _finish_connect_client (sample_reader []) sample_writer (identity "alice" "t")
    = Ok client
    /\ others client = Raise TypeError.
Proof.
  destruct (connect_survives_closed_stream (sample_reader []) sample_writer
              (identity "alice" "t") [])
    as (client & Hc & _ & Ho & _);
    [simpl; tauto|reflexivity|by apply N.leb_le|].
  by exists client.
Defined.

(** *** Looking members up *)

Lemma dict_get_snoc {K V} `{EqDecision K} (d : list (K * V)) (k : K) (v : V) :
  dict_get d k = None -> dict_get (d ++ [(k, v)]) k = Some v.
Proof. intros Hd. rewrite <- (dict_set_fresh d k v Hd). apply dict_get_set_eq. Qed.

Lemma dict_get_snoc_ne {K V} `{EqDecision K} (d : list (K * V)) (k k' : K) (v : V) :
  dict_get d k = None -> k <> k' -> dict_get (d ++ [(k, v)]) k' = dict_get d k'.
Proof. intros Hd Hne. rewrite <- (dict_set_fresh d k v Hd). by apply dict_get_set_ne. Qed.

Lemma existsb_key_matches_name (s : text) (ms : list (pykey * HijackClient)) :
  existsb (key_matches (ByName s)) (dict_keys ms) = dict_contains ms (KStr s).
Proof.
  unfold dict_contains, dict_keys. induction ms as [|[k c] ms IH]; [done|].
  cbn [List.map existsb key_matches fst dict_get].
  destruct (decide (k = KStr s)) as [->|Hne].
  - by rewrite bool_decide_eq_true_2.
  - by rewrite bool_decide_eq_false_2.
Qed.

Lemma add_remote_Ok (remote : HijackClient) (self self' : HijackLobby) (n : Jsonable) :
  add_remote remote self = (Ok tt, self') -> name remote = Ok n ->
  exists k, py_hash n = Ok k
            /\ dict_get (_members self) k = None
            /\ self' = set_members (_members self ++ [(k, remote)]) self.
Proof.
  intros Hadd Hn. pose proof (add_remote_outcome remote self) as Hout.
  rewrite Hn in Hout. cbn [obind] in Hout.
  destruct (py_hash n) as [k| |]; [|congruence..].
  exists k. split; [done|].
  destruct (dict_get (_members self) k); [congruence|]. split; [done|]. congruence.
Qed.

(** X10.  A connection that joined a lobby is found there under its
    name: the name was free before, [get], indexing and [in] find the new
    member after, it comes last in the iteration, and every member that
    was there is still found under its name. *)
Theorem member_found_after_joining
    (remote : HijackClient) (self self' : HijackLobby) (n : Jsonable) :
  add_remote remote self = (Ok tt, self') ->
  name remote = Ok n ->
  get self n = Ok None
  /\ get self' n = Ok (Some remote)
  /\ __getitem__ self' n = Ok remote
  /\ (forall s, n = JStr s -> __contains__ self' (ByName s) = Ok true)
  /\ __iter__ self' = __iter__ self ++ [remote]
  /\ (forall n' c, get self n' = Ok (Some c) -> get self' n' = Ok (Some c)).
Proof.
  intros Hadd Hn. destruct (add_remote_Ok _ _ _ _ Hadd Hn) as (k & Hk & Hfree & ->).
  unfold get, __getitem__, __iter__, __contains__. rewrite Hk.
  cbn [obind _members set_members]. rewrite Hfree, (dict_get_snoc _ _ _ Hfree).
  split; [done|]. split; [done|]. split; [done|]. split; [|split].
  - intros s ->. injection Hk as <-.
    rewrite existsb_key_matches_name. unfold dict_contains.
    by rewrite (dict_get_snoc _ _ _ Hfree).
  - unfold dict_values. by rewrite map_app.
  - intros n' c. destruct (py_hash n') as [k'| |]; cbn [obind]; [|done..].
    intros [= Hc]. rewrite dict_get_snoc_ne; [by rewrite Hc|done|congruence].
Qed.

Lemma member_found_after_joining_witness :
  get lobby_with_alice (JStr (txt "bob")) = Ok None
  /\ get (snd (add_remote bob lobby_with_alice)) (JStr (txt "bob")) = Ok (Some bob).
Proof.
  destruct (member_found_after_joining bob lobby_with_alice
              (snd (add_remote bob lobby_with_alice)) (JStr (txt "bob")))
    as (H1 & H2 & _); [reflexivity|reflexivity|].
  by split.
Defined.

(** X11.  The three lookups of a lobby agree: [get] returns [None] for
    a name exactly when indexing raises [KeyError] and exactly when [in]
    is false, and returns the member that indexing returns; a name that
    cannot be hashed raises [TypeError] in both; and in a lobby filled
    by [add_remote] the member found under a name reports a name equal to
    it. *)
Theorem lookups_agree (self : HijackLobby) :
  (forall s, get self (JStr s) = Ok None <-> __getitem__ self (JStr s) = Raise KeyError)
  /\ (forall s, get self (JStr s) = Ok None <-> __contains__ self (ByName s) = Ok false)
  /\ (forall n c, get self n = Ok (Some c) <-> __getitem__ self n = Ok c)
  /\ (forall n, py_hash n = Raise TypeError ->
        get self n = Raise TypeError /\ __getitem__ self n = Raise TypeError)
  /\ (lobby_ok self = true ->
      forall n c, __getitem__ self n = Ok c ->
        exists n', name c = Ok n' /\ py_eqb n' n = true).
Proof.
  unfold get, __getitem__, __contains__. split; [|split; [|split; [|split]]].
  - intros s. cbn [py_hash obind].
    destruct (dict_get (_members self) (KStr s)); split; congruence.
  - intros s. rewrite existsb_key_matches_name. unfold dict_contains. cbn [py_hash obind].
    destruct (dict_get (_members self) (KStr s)); split; congruence.
  - intros n c. destruct (py_hash n) as [k| |]; cbn [obind]; [|split; congruence..].
    destruct (dict_get (_members self) k); split; congruence.
  - intros n ->. done.
  - intros Hok n c. destruct (py_hash n) as [k| |] eqn:Hk; cbn [obind]; [|done..].
    destruct (dict_get (_members self) k) as [c'|] eqn:Hget; [|done].
    intros [= ->]. apply dict_get_In in Hget.
    destruct (proj1 (lobby_ok_spec self) Hok k c Hget) as (n' & Hn' & Hk').
    exists n'. split; [done|]. rewrite (py_eqb_hash n' n k k Hk' Hk).
    by apply bool_decide_eq_true_2.
Qed.

Lemma lookups_agree_witness :
  exists n', name alice = Ok n' /\ py_eqb n' (JStr (txt "alice")) = true.
Proof.
  destruct (lookups_agree lobby_with_alice) as (_ & _ & _ & _ & Hname).
  apply (Hname eq_refl (JStr (txt "alice")) alice). reflexivity.
Defined.







(** *** The server and its table *)









Lemma finish_connect_server_writer reader writer remote :
  finish_connect_server reader writer = Ok remote -> _writer remote = writer.
Proof.
  rewrite finish_connect_server_eq.
  destruct (fst (read_message (unconnected reader writer))) as [v| |]; [|done..].
  cbn [obind]. intros [= <-]. cbn [set_metadata _writer].
  by destruct (read_message_writer (unconnected reader writer)) as [-> _].
Qed.

(** X15.  A connection that joins a lobby which is not complete yet is
    kept waiting and left alone: the handling returns, nothing is written
    to the connection and it is not closed, the connection is a member of
    the lobby stored under the key of its lobby name, and no other lobby
    of the table is touched. *)
Theorem waiting_member_is_left_alone
    (reader : StreamReader) (writer : StreamWriter) (self self1 : HijackServer) :
  enroll reader writer self = (Ok None, self1) ->
  _handle_client reader writer self = (Ok tt, self1)
  /\ journal self1 = journal self
  /\ exists key lb remote k,
       _building_lobbies self1 !! key = Some lb
       /\ dict_get (_members lb) k = Some remote
       /\ _writer remote = writer
       /\ _starting_metadata remote = JNull
       /\ check_lobby_complete (_handler self) lb = false
       /\ forall key', key' <> key ->
            _building_lobbies self1 !! key' = _building_lobbies self !! key'.
Proof.
  intros Henroll. split; [unfold _handle_client; by rewrite Henroll|].
  pose proof (enroll_enrolled reader writer self) as Hen. rewrite Henroll in Hen.
  inversion Hen as [r Hr|remote lobby_name key r lb' Hfin Hl Hk Hadd Hres]; subst.
  { by destruct (Hr None). }
  destruct r as [[]|e|]; [|discriminate..].
  destruct (check_lobby_complete (_handler self) lb') eqn:Hcheck; [discriminate|].
  injection Hres as <-. split; [done|].
  destruct (name remote) as [n| |] eqn:Hn.
  - destruct (add_remote_Ok _ _ _ _ Hadd Hn) as (k & Hkn & Hfree & ->).
    exists key, (set_members
                   (_members (default (HijackLobby_init lobby_name)
                                (_building_lobbies self !! key)) ++ [(k, remote)])
                   (default (HijackLobby_init lobby_name) (_building_lobbies self !! key))),
      remote, k.
    cbn [_building_lobbies set_building_lobbies _members set_members].
    rewrite lookup_insert_eq. split; [done|]. split; [by apply dict_get_snoc|].
    split; [by apply (finish_connect_server_writer reader)|].
    split.
    { pose proof (finish_connect_server_fresh _ _ _ Hfin) as Hf.
      by destruct (_starting_metadata remote). }
    split; [done|]. intros key' Hne. by rewrite lookup_insert_ne.
  - pose proof (add_remote_outcome remote
                  (default (HijackLobby_init lobby_name) (_building_lobbies self !! key)))
      as Hout.
    rewrite Hn in Hout. cbn [obind] in Hout. congruence.
  - pose proof (add_remote_outcome remote
                  (default (HijackLobby_init lobby_name) (_building_lobbies self !! key)))
      as Hout.
    rewrite Hn in Hout. cbn [obind] in Hout. congruence.
Qed.

Lemma waiting_member_is_left_alone_witness :
  _handle_client (sample_reader alice_line) sample_writer sample_server
  = (Ok tt, server_with_alice).
Proof.
  apply (waiting_member_is_left_alone (sample_reader alice_line) sample_writer
           sample_server server_with_alice).
  reflexivity.
Defined.

(** X16.  A first message whose lobby field is a list or an object is
    refused: a lobby name has to be hashable, so the handling raises
    [TypeError], and the server is left as it was. *)
Theorem unhashable_lobby_is_refused
    (reader : StreamReader) (writer : StreamWriter) (self : HijackServer)
    (v l : Jsonable) :
  fst (read_message (unconnected reader writer)) = Ok v ->
  py_getitem v (txt "lobby") = Ok l ->
  (exists items, l = JList items) \/ (exists items, l = JDict items) ->
  _handle_client reader writer self = (Raise TypeError, self).
Proof.
  intros Hv Hl Hshape. apply handle_client_enroll_raises. unfold enroll.
  rewrite finish_connect_server_eq, Hv. cbn [obind].
  unfold lobby. rewrite metadata_item_set_metadata, Hl. cbn [obind].
  by destruct Hshape as [[items ->]|[items ->]].
Qed.

Lemma unhashable_lobby_is_refused_witness :
  _handle_client
    (sample_reader (wire (JDict [(txt "name", JStr (txt "a")); (txt "lobby", JList [])])))
    sample_writer sample_server
  = (Raise TypeError, sample_server).
Proof.
  apply (unhashable_lobby_is_refused _ _ _
           (JDict [(txt "name", JStr (txt "a")); (txt "lobby", JList [])]) (JList []));
    [reflexivity|reflexivity|left; by exists []].
Defined.

(** X17.  A second connection that gives a name already taken in the
    lobby it asks for is refused by the server: the handling raises the
    duplicate-name exception and the server, with the lobby and the member
    that holds the name, is exactly as it was. *)
Theorem duplicate_name_is_refused
    (reader : StreamReader) (writer : StreamWriter) (self : HijackServer)
    (remote : HijackClient) (lobby_name n : Jsonable) (key k : pykey) (lb : HijackLobby) :
  finish_connect_server reader writer = Ok remote ->
  lobby remote = Ok lobby_name ->
  py_hash lobby_name = Ok key ->
  name remote = Ok n ->
  py_hash n = Ok k ->
  _building_lobbies self !! key = Some lb ->
  dict_contains (_members lb) k = true ->
  _handle_client reader writer self
  = (Raise (Exception "Duplicate name in lobby"), self).
Proof.
  intros Hfin Hl Hkey Hn Hk Hlook Hdup. apply handle_client_enroll_raises.
  rewrite (enroll_joined reader writer self remote lobby_name key Hfin Hl Hkey).
  cbv zeta. rewrite Hlook. cbn [default from_option id].
  pose proof (add_remote_outcome remote lb) as Hout.
  rewrite Hn in Hout. cbn [obind] in Hout. rewrite Hk in Hout.
  unfold dict_contains in Hdup.
  destruct (dict_get (_members lb) k); [|discriminate].
  rewrite Hout. by rewrite insert_id, set_building_lobbies_same.
Qed.

Lemma duplicate_name_is_refused_witness :
  _handle_client (sample_reader alice_line) sample_writer server_with_alice
  = (Raise (Exception "Duplicate name in lobby"), server_with_alice).
Proof.
  apply (duplicate_name_is_refused (sample_reader alice_line) sample_writer
           server_with_alice
           (set_metadata (identity "alice" "t") (listening []))
           (JStr (txt "t")) (JStr (txt "alice")) (KStr (txt "t")) (KStr (txt "alice"))
           (set_members [(KStr (txt "alice"),
                          set_metadata (identity "alice" "t") (listening []))]
              (HijackLobby_init (JStr (txt "t")))));
    reflexivity.
Defined.

(** X18.  A roster is sent to a connection once: after
    [send_starting_metadata] has succeeded, with its line written and the
    roster recorded, every further call raises and writes nothing. *)
Theorem starting_metadata_is_sent_once
    (os os' : list Jsonable) (c c' : HijackClient) :
  send_starting_metadata os c = (Ok tt, c') ->
  written (_writer c') = written (_writer c) ++ wire (starting_metadata os)
  /\ _starting_metadata c' = starting_metadata os
  /\ send_starting_metadata os' c'
     = (Raise (Exception "Tried to send starting metadata twice"), c').
Proof.
  unfold send_starting_metadata at 1.
  destruct (negb (is_None (_starting_metadata c))); [done|].
  rewrite send_message_writes. intros [= <-]. by repeat split.
Qed.

Lemma starting_metadata_is_sent_once_witness :
  send_starting_metadata [] (started [JStr (txt "bob")] alice)
  = (Raise (Exception "Tried to send starting metadata twice"),
     started [JStr (txt "bob")] alice).
Proof.
  apply (starting_metadata_is_sent_once [JStr (txt "bob")] [] alice
           (started [JStr (txt "bob")] alice)).
  reflexivity.
Defined.

(** *** [async with] *)

(** X19.  Under [async with] the connection is closed however the body
    ends: after a body that returns or raises, the writer is closed; when
    closing succeeds the result or the exception of the body is what comes
    out and the reader has been fed the end of input; when closing fails,
    its error comes out. *)
Theorem async_with_always_closes {A} (body : St HijackClient A) (self : HijackClient) :
  fst (body self) <> Beyond ->
  closed (_writer (snd (async_with body self))) = true
  /\ written (_writer (snd (async_with body self))) = written (_writer (snd (body self)))
  /\ (close_error (_writer (snd (body self))) = None ->
        fst (async_with body self) = fst (body self)
        /\ eof_fed (_reader (snd (async_with body self))) = true)
  /\ (forall e, close_error (_writer (snd (body self))) = Some e ->
        fst (async_with body self) = Raise e).
Proof.
  intros Hbody. unfold async_with, __aenter__, __aexit__.
  destruct (body self) as [r self1]. cbn [fst snd] in *.
  rewrite (close_outcome self1). unfold close.
  destruct r as [a|e|]; [| |done];
    (destruct (close_error (_writer self1)) as [e'|]; cbn [fst snd obind];
     repeat split; try done; intros e0 [= <-]; done).
Qed.

Lemma async_with_always_closes_witness :
  closed (_writer (snd (async_with (sraise (A := unit) KeyError) alice))) = true
  /\ fst (async_with (sraise (A := unit) KeyError) alice) = Raise KeyError.
Proof.
  destruct (async_with_always_closes (sraise (A := unit) KeyError) alice)
    as (Hclosed & _ & Hclean & _); [discriminate|].
  split; [exact Hclosed|]. apply Hclean. reflexivity.
Defined.

(** *** Starting and stopping the server *)

Lemma after_calls_started (start_server : Z -> outcome Server) (calls : list call) :
  forall self : Listener,
    _sock self <> None -> _sock (after_calls start_server calls self) <> None.
Proof.
  unfold after_calls. induction calls as [|c calls IH]; intros self Hs; [done|].
  cbn [fold_left]. apply IH.
  destruct c; unfold after_call, run, stop;
    (destruct (_sock self) as [sock|] eqn:Hsock; [|done]); cbn [snd].
  - by rewrite Hsock.
  - done.
Qed.

(** X20.  A server is started once.  [stop] before [run] raises
    [AttributeError]; when the port cannot be bound, [run] raises that
    error and may be called again; once [run] has started the listener,
    every later [run] raises and changes nothing, whatever calls of [stop]
    and [run] came in between: a server that was stopped cannot be started
    again. *)
Theorem server_is_started_once
    (start_server : Z -> outcome Server) (self : Listener) :
  _sock self = None ->
  stop self = (Raise AttributeError, self)
  /\ (forall e, start_server (_port (server self)) = Raise e ->
        run start_server self = (Raise e, self))
  /\ (forall sock, start_server (_port (server self)) = Ok sock ->
        fst (run start_server self) = Ok tt
        /\ forall calls,
             let later := after_calls start_server calls (snd (run start_server self)) in
             run start_server later
             = (Raise (Exception "Server is already running"), later)).
Proof.
  intros Hnone. unfold stop at 1. rewrite Hnone. split; [done|]. split.
  - intros e He. unfold run. by rewrite Hnone, He.
  - intros sock Hsock. split; [unfold run; by rewrite Hnone, Hsock|].
    intros calls. cbv zeta.
    set (later := after_calls start_server calls (snd (run start_server self))).
    assert (Hs : _sock later <> None).
    { apply after_calls_started. unfold run. by rewrite Hnone, Hsock. }
    unfold run. by destruct (_sock later).
Qed.

Lemma server_is_started_once_witness :
  run sample_start
    (after_calls sample_start [CallStop] (snd (run sample_start sample_listener)))
  = (Raise (Exception "Server is already running"),
     after_calls sample_start [CallStop] (snd (run sample_start sample_listener))).
Proof.
  destruct (server_is_started_once sample_start sample_listener) as (_ & _ & Hrun);
    [reflexivity|].
  destruct (Hrun {| serving := true |}) as [_ Hlater]; [reflexivity|].
  apply (Hlater [CallStop]).
Defined.

(** *** The example game *)

(** X21.  The test for a win of the noughts-and-crosses example, on a
    board of three rows of three cells: the side that has just played wins
    when it fills a row or a column, or holds the centre and one of the
    corners (0,2) and (2,0).  So two marks are enough on that diagonal, and
    three marks on the diagonal from (0,0) to (2,2) are not a win. *)
Theorem noughts_win_test (a00 a01 a02 a10 a11 a12 a20 a21 a22 side : text) :
  let has (cell : text) := bool_decide (cell = side) in
  wins [[a00; a01; a02]; [a10; a11; a12]; [a20; a21; a22]] side
  = Ok ((has a00 && has a01 && has a02) || (has a10 && has a11 && has a12)
        || (has a20 && has a21 && has a22)
        || (has a00 && has a10 && has a20) || (has a01 && has a11 && has a21)
        || (has a02 && has a12 && has a22)
        || (has a02 && has a11) || (has a20 && has a11))
  /\ (forall e, e <> side ->
        wins [[e; e; side]; [e; side; e]; [e; e; e]] side = Ok true
        /\ wins [[side; e; e]; [e; side; e]; [e; e; side]] side = Ok false).
Proof.
  cbv zeta. split.
  - unfold wins, line_complete, all_are, or_else, item.
    cbn [seq any_step omap nth_error obind forallb Nat.sub].
    destruct (bool_decide (a00 = side)), (bool_decide (a01 = side)),
      (bool_decide (a02 = side)), (bool_decide (a10 = side)), (bool_decide (a11 = side)),
      (bool_decide (a12 = side)), (bool_decide (a20 = side)), (bool_decide (a21 = side)),
      (bool_decide (a22 = side)); reflexivity.
  - intros e He. unfold wins, line_complete, all_are, or_else, item.
    cbn [seq any_step omap nth_error obind forallb Nat.sub].
    rewrite (bool_decide_eq_true_2 (side = side)) by done.
    rewrite (bool_decide_eq_false_2 (e = side)) by done. by split.
Qed.

Lemma noughts_win_test_witness :
  wins [[txt "_"; txt "_"; txt "X"]; [txt "_"; txt "X"; txt "_"]; [txt "_"; txt "_"; txt "_"]]
    (txt "X") = Ok true
  /\ wins [[txt "X"; txt "_"; txt "_"]; [txt "_"; txt "X"; txt "_"]; [txt "_"; txt "_"; txt "X"]]
       (txt "X") = Ok false.
Proof.
  destruct (noughts_win_test (txt "_") (txt "_") (txt "_") (txt "_") (txt "_") (txt "_")
              (txt "_") (txt "_") (txt "_") (txt "X")) as [_ Hd].
  apply (Hd (txt "_")). discriminate.
Defined.

(** X22.  A connection touches no lobby but the one it names: however
    its handling ends, either the table is left as it was, or the
    connection had completed its handshake and named a lobby, and every
    lobby stored under another key is the same as before. *)
Theorem other_lobbies_are_untouched
    (reader : StreamReader) (writer : StreamWriter) (self : HijackServer) :
  _building_lobbies (snd (_handle_client reader writer self)) = _building_lobbies self
  \/ exists remote lobby_name key,
       finish_connect_server reader writer = Ok remote
       /\ lobby remote = Ok lobby_name
       /\ py_hash lobby_name = Ok key
       /\ forall key', key' <> key ->
            _building_lobbies (snd (_handle_client reader writer self)) !! key'
            = _building_lobbies self !! key'.
Proof.
  rewrite handle_client_table.
  destruct (enroll_enrolled reader writer self)
    as [r Hr|remote lobby_name key r lb' Hfin Hl Hk Hadd]; [by left|].
  right. exists remote, lobby_name, key. repeat split; try done.
  intros key' Hne.
  destruct r as [[]|e|]; [destruct (check_lobby_complete (_handler self) lb')|..];
    cbn [snd _building_lobbies set_building_lobbies log].
  - by rewrite lookup_delete_ne.
  - by rewrite lookup_insert_ne.
  - by rewrite lookup_insert_ne.
  - by rewrite lookup_insert_ne.
Qed.

(** X23.  When the game of the handler raises, the server closes
    nothing: the handling of the connection that completed the lobby
    raises the exception of [run_lobby], and what it did, in order, is to
    take the lobby out of the table, send the rosters and call
    [run_lobby]; no connection of the lobby is closed. *)
Theorem runner_failure_closes_nothing
    (reader : StreamReader) (writer : StreamWriter) (self self1 : HijackServer)
    (lb lb2 : HijackLobby) (e : exn) :
  server_ok self ->
  enroll reader writer self = (Ok (Some lb), self1) ->
  let ready := set_members (announced (_members lb)) lb in
  run_lobby (_handler self) ready = (Raise e, lb2) ->
  fst (_handle_client reader writer self) = Raise e
  /\ exists key,
       let done := Unlisted key :: roster_events (_members lb)
                   ++ [RanLobby ready (Raise e)] in
       journal (snd (_handle_client reader writer self)) = journal self ++ done
       /\ Forall (fun ev => forall k r, ev <> ClosedMember k r) done.
Proof.
  intros Hs Henroll ready Hrun.
  destruct (server_ok_enroll reader writer self Hs) as [_ Hlb].
  rewrite Henroll in Hlb. specialize (Hlb lb eq_refl).
  pose proof (enroll_same_handler reader writer self) as Hh.
  rewrite Henroll in Hh. cbn [snd] in Hh.
  pose proof (start_lobby_ok lb self1 Hlb) as Hstart. cbv zeta in Hstart.
  rewrite Hh in Hstart. fold ready in Hstart. rewrite Hrun in Hstart.
  unfold _handle_client. rewrite Henroll, Hstart. cbn [fst snd].
  split; [done|].
  pose proof (enroll_enrolled reader writer self) as Hen. rewrite Henroll in Hen.
  inversion Hen as [r0 Hr0|remote lobby_name key r0 lb' Hfin Hl Hk Hadd Hres]; subst.
  { by destruct (Hr0 (Some lb)). }
  destruct r0 as [[]|e0|]; [|discriminate..].
  destruct (check_lobby_complete (_handler self) lb'); [|discriminate].
  injection Hres as _ <-. exists key. cbv zeta. split.
  - cbn [journal log]. by rewrite <- !app_assoc.
  - apply List.Forall_cons; [done|]. apply Forall_app. split.
    + unfold roster_events. apply Forall_forall. intros ev Hev k r.
      apply list_elem_of_In, in_map_iff in Hev as (m & <- & _). done.
    + by apply List.Forall_cons.
Qed.

Lemma runner_failure_closes_nothing_witness :
  fst (_handle_client (sample_reader bob_line) sample_writer failing_server_with_alice)
  = Raise (Exception "game over").
Proof.
  destruct (runner_failure_closes_nothing (sample_reader bob_line) sample_writer
              failing_server_with_alice
              (snd (enroll (sample_reader bob_line) sample_writer failing_server_with_alice))
              (set_members
                 [(KStr (txt "alice"), set_metadata (identity "alice" "t") (listening []));
                  (KStr (txt "bob"), set_metadata (identity "bob" "t") (listening []))]
                 (HijackLobby_init (JStr (txt "t"))))
              (set_members
                 (announced
                    [(KStr (txt "alice"), set_metadata (identity "alice" "t") (listening []));
                     (KStr (txt "bob"), set_metadata (identity "bob" "t") (listening []))])
                 (HijackLobby_init (JStr (txt "t"))))
              (Exception "game over"))
    as [Hraise _].
  - apply server_ok_handle_client, server_ok_init.
  - reflexivity.
  - reflexivity.
  - exact Hraise.
Defined.
